(** * Layout1d: the one-dimensional windowed range engine

    Shallow embedding of
    [packages/uni-virtualizer/src/lib/layouts/Layout1d.ts].

    Conventions of the embedding.
    - A JavaScript [number] is modelled by [Z]: the layout works on
      integral pixel quantities (the average item size is rounded "to keep
      integer values"), and neither [NaN] nor the infinities are
      represented.  [undefined] and [null] are [None].  The sums and
      differences of the source are those of [Z] as long as the sizes it is
      given are integers (of a magnitude where doubles are exact); for
      sizes with a fractional part its sums are sums of doubles, which
      module [Doubles] follows for the accounts of [updateItemSizes].
    - A [Map<number, ItemBounds>] is a [gmap Z ItemBounds].  Every
      [ItemBounds] object is created by one [items.set] and never stored in
      two maps, so in-place updates of an item are updates of the map that
      holds it.
    - [this] is threaded explicitly: a method is a function on [Layout1d].
      Console output, [_scheduleReflow] and the [_emit...] callbacks of the
      host are recorded, most recent first, in the [_trace] component.
    - Code that can throw a [TypeError] or loop for ever returns an
      [outcome]. *)

From Stdlib Require Import ZArith Lia Bool List String.
From Stdlib Require PrimFloat FloatOps SpecFloat.
From stdpp Require Import base option gmap fin_maps list.

Local Open Scope Z_scope.

(* lia understands the divisions of [Math.round] and [Math.floor] *)
Ltac Zify.zify_post_hook ::= Z.to_euclidean_division_equations.

(** ** Data *)

(** [type ItemBounds = {pos: number, size: number}] *)
Record ItemBounds : Type := mkItemBounds { pos : Z; size : Z }.

(** [Size] of [./Layout]: width and height of a child. *)
Record Size : Type := mkSize { width : Z; height : Z }.

(** [ItemBox] of [./Layout]: a measured box, the four margins optional. *)
Record ItemBox : Type := mkItemBox {
  box_width : Z;
  box_height : Z;
  marginLeft : option Z;
  marginRight : option Z;
  marginTop : option Z;
  marginBottom : option Z
}.

(** The two axes; [_sizeDim] names the one items are laid out along. *)
Inductive Dim : Type := Width | Height.

Definition dim_get (d : Dim) (s : Size) : Z :=
  match d with Width => width s | Height => height s end.

Definition dim_set (d : Dim) (v : Z) (s : Size) : Size :=
  match d with
  | Width => {| width := v; height := height s |}
  | Height => {| width := width s; height := v |}
  end.

Definition other_dim (d : Dim) : Dim :=
  match d with Width => Height | Height => Width end.

(** What the host observes of a call. *)
Inductive Event : Type :=
| ConsoleWarn (message : string)
| ConsoleError (message : string)
| ScheduleReflow
| EmitScrollSize (scrollSize : Z)
| EmitRange (first last : Z) (remeasure stable : bool)
| EmitChildPositions (children : list (Z * (Z * Z)))
| EmitScrollError (scrollError : Z).

(** The instance.  The first ten fields are declared by [Layout1d]; the
    others are state of [Layout1dBase] that the methods below read and
    write ([_delta] is the current value of its getter of that name). *)
Record Layout1d : Type := mkLayout1d {
  _physicalItems : gmap Z ItemBounds;
  _newPhysicalItems : gmap Z ItemBounds;
  _metrics : gmap Z Size;
  _anchorIdx : option Z;
  _anchorPos : option Z;
  _stable : bool;
  _needsRemeasure : bool;
  _nMeasured : Z;
  _tMeasured : Z;
  _estimate : bool;
  _totalItems : Z;
  _viewDim1 : Z;
  _overhang : Z;
  _spacing : Z;
  _delta : Z;
  _sizeDim : Dim;
  _itemSize : Size;
  _scrollPosition : Z;
  _scrollSize : Z;
  _scrollError : Z;
  _first : Z;
  _last : Z;
  _physicalMin : Z;
  _physicalMax : Z;
  _trace : list Event
}.

(** ** Field updates ([this.f = v]) *)

Definition set_physicalItems (v : gmap Z ItemBounds) (st : Layout1d) : Layout1d :=
  {| _physicalItems := v; _newPhysicalItems := _newPhysicalItems st;
     _metrics := _metrics st; _anchorIdx := _anchorIdx st; _anchorPos :=
     _anchorPos st; _stable := _stable st; _needsRemeasure :=
     _needsRemeasure st; _nMeasured := _nMeasured st; _tMeasured :=
     _tMeasured st; _estimate := _estimate st; _totalItems := _totalItems
     st; _viewDim1 := _viewDim1 st; _overhang := _overhang st; _spacing :=
     _spacing st; _delta := _delta st; _sizeDim := _sizeDim st; _itemSize :=
     _itemSize st; _scrollPosition := _scrollPosition st; _scrollSize :=
     _scrollSize st; _scrollError := _scrollError st; _first := _first st;
     _last := _last st; _physicalMin := _physicalMin st; _physicalMax :=
     _physicalMax st; _trace := _trace st |}.

Definition set_newPhysicalItems (v : gmap Z ItemBounds) (st : Layout1d) : Layout1d :=
  {| _physicalItems := _physicalItems st; _newPhysicalItems := v; _metrics
     := _metrics st; _anchorIdx := _anchorIdx st; _anchorPos := _anchorPos
     st; _stable := _stable st; _needsRemeasure := _needsRemeasure st;
     _nMeasured := _nMeasured st; _tMeasured := _tMeasured st; _estimate :=
     _estimate st; _totalItems := _totalItems st; _viewDim1 := _viewDim1 st;
     _overhang := _overhang st; _spacing := _spacing st; _delta := _delta
     st; _sizeDim := _sizeDim st; _itemSize := _itemSize st; _scrollPosition
     := _scrollPosition st; _scrollSize := _scrollSize st; _scrollError :=
     _scrollError st; _first := _first st; _last := _last st; _physicalMin
     := _physicalMin st; _physicalMax := _physicalMax st; _trace := _trace
     st |}.

Definition set_metrics (v : gmap Z Size) (st : Layout1d) : Layout1d :=
  {| _physicalItems := _physicalItems st; _newPhysicalItems :=
     _newPhysicalItems st; _metrics := v; _anchorIdx := _anchorIdx st;
     _anchorPos := _anchorPos st; _stable := _stable st; _needsRemeasure :=
     _needsRemeasure st; _nMeasured := _nMeasured st; _tMeasured :=
     _tMeasured st; _estimate := _estimate st; _totalItems := _totalItems
     st; _viewDim1 := _viewDim1 st; _overhang := _overhang st; _spacing :=
     _spacing st; _delta := _delta st; _sizeDim := _sizeDim st; _itemSize :=
     _itemSize st; _scrollPosition := _scrollPosition st; _scrollSize :=
     _scrollSize st; _scrollError := _scrollError st; _first := _first st;
     _last := _last st; _physicalMin := _physicalMin st; _physicalMax :=
     _physicalMax st; _trace := _trace st |}.

Definition set_anchorIdx (v : option Z) (st : Layout1d) : Layout1d :=
  {| _physicalItems := _physicalItems st; _newPhysicalItems :=
     _newPhysicalItems st; _metrics := _metrics st; _anchorIdx := v;
     _anchorPos := _anchorPos st; _stable := _stable st; _needsRemeasure :=
     _needsRemeasure st; _nMeasured := _nMeasured st; _tMeasured :=
     _tMeasured st; _estimate := _estimate st; _totalItems := _totalItems
     st; _viewDim1 := _viewDim1 st; _overhang := _overhang st; _spacing :=
     _spacing st; _delta := _delta st; _sizeDim := _sizeDim st; _itemSize :=
     _itemSize st; _scrollPosition := _scrollPosition st; _scrollSize :=
     _scrollSize st; _scrollError := _scrollError st; _first := _first st;
     _last := _last st; _physicalMin := _physicalMin st; _physicalMax :=
     _physicalMax st; _trace := _trace st |}.

Definition set_anchorPos (v : option Z) (st : Layout1d) : Layout1d :=
  {| _physicalItems := _physicalItems st; _newPhysicalItems :=
     _newPhysicalItems st; _metrics := _metrics st; _anchorIdx := _anchorIdx
     st; _anchorPos := v; _stable := _stable st; _needsRemeasure :=
     _needsRemeasure st; _nMeasured := _nMeasured st; _tMeasured :=
     _tMeasured st; _estimate := _estimate st; _totalItems := _totalItems
     st; _viewDim1 := _viewDim1 st; _overhang := _overhang st; _spacing :=
     _spacing st; _delta := _delta st; _sizeDim := _sizeDim st; _itemSize :=
     _itemSize st; _scrollPosition := _scrollPosition st; _scrollSize :=
     _scrollSize st; _scrollError := _scrollError st; _first := _first st;
     _last := _last st; _physicalMin := _physicalMin st; _physicalMax :=
     _physicalMax st; _trace := _trace st |}.

Definition set_stable (v : bool) (st : Layout1d) : Layout1d :=
  {| _physicalItems := _physicalItems st; _newPhysicalItems :=
     _newPhysicalItems st; _metrics := _metrics st; _anchorIdx := _anchorIdx
     st; _anchorPos := _anchorPos st; _stable := v; _needsRemeasure :=
     _needsRemeasure st; _nMeasured := _nMeasured st; _tMeasured :=
     _tMeasured st; _estimate := _estimate st; _totalItems := _totalItems
     st; _viewDim1 := _viewDim1 st; _overhang := _overhang st; _spacing :=
     _spacing st; _delta := _delta st; _sizeDim := _sizeDim st; _itemSize :=
     _itemSize st; _scrollPosition := _scrollPosition st; _scrollSize :=
     _scrollSize st; _scrollError := _scrollError st; _first := _first st;
     _last := _last st; _physicalMin := _physicalMin st; _physicalMax :=
     _physicalMax st; _trace := _trace st |}.

Definition set_needsRemeasure (v : bool) (st : Layout1d) : Layout1d :=
  {| _physicalItems := _physicalItems st; _newPhysicalItems :=
     _newPhysicalItems st; _metrics := _metrics st; _anchorIdx := _anchorIdx
     st; _anchorPos := _anchorPos st; _stable := _stable st; _needsRemeasure
     := v; _nMeasured := _nMeasured st; _tMeasured := _tMeasured st;
     _estimate := _estimate st; _totalItems := _totalItems st; _viewDim1 :=
     _viewDim1 st; _overhang := _overhang st; _spacing := _spacing st;
     _delta := _delta st; _sizeDim := _sizeDim st; _itemSize := _itemSize
     st; _scrollPosition := _scrollPosition st; _scrollSize := _scrollSize
     st; _scrollError := _scrollError st; _first := _first st; _last :=
     _last st; _physicalMin := _physicalMin st; _physicalMax := _physicalMax
     st; _trace := _trace st |}.

Definition set_nMeasured (v : Z) (st : Layout1d) : Layout1d :=
  {| _physicalItems := _physicalItems st; _newPhysicalItems :=
     _newPhysicalItems st; _metrics := _metrics st; _anchorIdx := _anchorIdx
     st; _anchorPos := _anchorPos st; _stable := _stable st; _needsRemeasure
     := _needsRemeasure st; _nMeasured := v; _tMeasured := _tMeasured st;
     _estimate := _estimate st; _totalItems := _totalItems st; _viewDim1 :=
     _viewDim1 st; _overhang := _overhang st; _spacing := _spacing st;
     _delta := _delta st; _sizeDim := _sizeDim st; _itemSize := _itemSize
     st; _scrollPosition := _scrollPosition st; _scrollSize := _scrollSize
     st; _scrollError := _scrollError st; _first := _first st; _last :=
     _last st; _physicalMin := _physicalMin st; _physicalMax := _physicalMax
     st; _trace := _trace st |}.

Definition set_tMeasured (v : Z) (st : Layout1d) : Layout1d :=
  {| _physicalItems := _physicalItems st; _newPhysicalItems :=
     _newPhysicalItems st; _metrics := _metrics st; _anchorIdx := _anchorIdx
     st; _anchorPos := _anchorPos st; _stable := _stable st; _needsRemeasure
     := _needsRemeasure st; _nMeasured := _nMeasured st; _tMeasured := v;
     _estimate := _estimate st; _totalItems := _totalItems st; _viewDim1 :=
     _viewDim1 st; _overhang := _overhang st; _spacing := _spacing st;
     _delta := _delta st; _sizeDim := _sizeDim st; _itemSize := _itemSize
     st; _scrollPosition := _scrollPosition st; _scrollSize := _scrollSize
     st; _scrollError := _scrollError st; _first := _first st; _last :=
     _last st; _physicalMin := _physicalMin st; _physicalMax := _physicalMax
     st; _trace := _trace st |}.

Definition set_itemSize (v : Size) (st : Layout1d) : Layout1d :=
  {| _physicalItems := _physicalItems st; _newPhysicalItems :=
     _newPhysicalItems st; _metrics := _metrics st; _anchorIdx := _anchorIdx
     st; _anchorPos := _anchorPos st; _stable := _stable st; _needsRemeasure
     := _needsRemeasure st; _nMeasured := _nMeasured st; _tMeasured :=
     _tMeasured st; _estimate := _estimate st; _totalItems := _totalItems
     st; _viewDim1 := _viewDim1 st; _overhang := _overhang st; _spacing :=
     _spacing st; _delta := _delta st; _sizeDim := _sizeDim st; _itemSize :=
     v; _scrollPosition := _scrollPosition st; _scrollSize := _scrollSize
     st; _scrollError := _scrollError st; _first := _first st; _last :=
     _last st; _physicalMin := _physicalMin st; _physicalMax := _physicalMax
     st; _trace := _trace st |}.

Definition set_scrollPosition (v : Z) (st : Layout1d) : Layout1d :=
  {| _physicalItems := _physicalItems st; _newPhysicalItems :=
     _newPhysicalItems st; _metrics := _metrics st; _anchorIdx := _anchorIdx
     st; _anchorPos := _anchorPos st; _stable := _stable st; _needsRemeasure
     := _needsRemeasure st; _nMeasured := _nMeasured st; _tMeasured :=
     _tMeasured st; _estimate := _estimate st; _totalItems := _totalItems
     st; _viewDim1 := _viewDim1 st; _overhang := _overhang st; _spacing :=
     _spacing st; _delta := _delta st; _sizeDim := _sizeDim st; _itemSize :=
     _itemSize st; _scrollPosition := v; _scrollSize := _scrollSize st;
     _scrollError := _scrollError st; _first := _first st; _last := _last
     st; _physicalMin := _physicalMin st; _physicalMax := _physicalMax st;
     _trace := _trace st |}.

Definition set_scrollSize (v : Z) (st : Layout1d) : Layout1d :=
  {| _physicalItems := _physicalItems st; _newPhysicalItems :=
     _newPhysicalItems st; _metrics := _metrics st; _anchorIdx := _anchorIdx
     st; _anchorPos := _anchorPos st; _stable := _stable st; _needsRemeasure
     := _needsRemeasure st; _nMeasured := _nMeasured st; _tMeasured :=
     _tMeasured st; _estimate := _estimate st; _totalItems := _totalItems
     st; _viewDim1 := _viewDim1 st; _overhang := _overhang st; _spacing :=
     _spacing st; _delta := _delta st; _sizeDim := _sizeDim st; _itemSize :=
     _itemSize st; _scrollPosition := _scrollPosition st; _scrollSize := v;
     _scrollError := _scrollError st; _first := _first st; _last := _last
     st; _physicalMin := _physicalMin st; _physicalMax := _physicalMax st;
     _trace := _trace st |}.

Definition set_scrollError (v : Z) (st : Layout1d) : Layout1d :=
  {| _physicalItems := _physicalItems st; _newPhysicalItems :=
     _newPhysicalItems st; _metrics := _metrics st; _anchorIdx := _anchorIdx
     st; _anchorPos := _anchorPos st; _stable := _stable st; _needsRemeasure
     := _needsRemeasure st; _nMeasured := _nMeasured st; _tMeasured :=
     _tMeasured st; _estimate := _estimate st; _totalItems := _totalItems
     st; _viewDim1 := _viewDim1 st; _overhang := _overhang st; _spacing :=
     _spacing st; _delta := _delta st; _sizeDim := _sizeDim st; _itemSize :=
     _itemSize st; _scrollPosition := _scrollPosition st; _scrollSize :=
     _scrollSize st; _scrollError := v; _first := _first st; _last := _last
     st; _physicalMin := _physicalMin st; _physicalMax := _physicalMax st;
     _trace := _trace st |}.

Definition set_first (v : Z) (st : Layout1d) : Layout1d :=
  {| _physicalItems := _physicalItems st; _newPhysicalItems :=
     _newPhysicalItems st; _metrics := _metrics st; _anchorIdx := _anchorIdx
     st; _anchorPos := _anchorPos st; _stable := _stable st; _needsRemeasure
     := _needsRemeasure st; _nMeasured := _nMeasured st; _tMeasured :=
     _tMeasured st; _estimate := _estimate st; _totalItems := _totalItems
     st; _viewDim1 := _viewDim1 st; _overhang := _overhang st; _spacing :=
     _spacing st; _delta := _delta st; _sizeDim := _sizeDim st; _itemSize :=
     _itemSize st; _scrollPosition := _scrollPosition st; _scrollSize :=
     _scrollSize st; _scrollError := _scrollError st; _first := v; _last :=
     _last st; _physicalMin := _physicalMin st; _physicalMax := _physicalMax
     st; _trace := _trace st |}.

Definition set_last (v : Z) (st : Layout1d) : Layout1d :=
  {| _physicalItems := _physicalItems st; _newPhysicalItems :=
     _newPhysicalItems st; _metrics := _metrics st; _anchorIdx := _anchorIdx
     st; _anchorPos := _anchorPos st; _stable := _stable st; _needsRemeasure
     := _needsRemeasure st; _nMeasured := _nMeasured st; _tMeasured :=
     _tMeasured st; _estimate := _estimate st; _totalItems := _totalItems
     st; _viewDim1 := _viewDim1 st; _overhang := _overhang st; _spacing :=
     _spacing st; _delta := _delta st; _sizeDim := _sizeDim st; _itemSize :=
     _itemSize st; _scrollPosition := _scrollPosition st; _scrollSize :=
     _scrollSize st; _scrollError := _scrollError st; _first := _first st;
     _last := v; _physicalMin := _physicalMin st; _physicalMax :=
     _physicalMax st; _trace := _trace st |}.

Definition set_physicalMin (v : Z) (st : Layout1d) : Layout1d :=
  {| _physicalItems := _physicalItems st; _newPhysicalItems :=
     _newPhysicalItems st; _metrics := _metrics st; _anchorIdx := _anchorIdx
     st; _anchorPos := _anchorPos st; _stable := _stable st; _needsRemeasure
     := _needsRemeasure st; _nMeasured := _nMeasured st; _tMeasured :=
     _tMeasured st; _estimate := _estimate st; _totalItems := _totalItems
     st; _viewDim1 := _viewDim1 st; _overhang := _overhang st; _spacing :=
     _spacing st; _delta := _delta st; _sizeDim := _sizeDim st; _itemSize :=
     _itemSize st; _scrollPosition := _scrollPosition st; _scrollSize :=
     _scrollSize st; _scrollError := _scrollError st; _first := _first st;
     _last := _last st; _physicalMin := v; _physicalMax := _physicalMax st;
     _trace := _trace st |}.

Definition set_physicalMax (v : Z) (st : Layout1d) : Layout1d :=
  {| _physicalItems := _physicalItems st; _newPhysicalItems :=
     _newPhysicalItems st; _metrics := _metrics st; _anchorIdx := _anchorIdx
     st; _anchorPos := _anchorPos st; _stable := _stable st; _needsRemeasure
     := _needsRemeasure st; _nMeasured := _nMeasured st; _tMeasured :=
     _tMeasured st; _estimate := _estimate st; _totalItems := _totalItems
     st; _viewDim1 := _viewDim1 st; _overhang := _overhang st; _spacing :=
     _spacing st; _delta := _delta st; _sizeDim := _sizeDim st; _itemSize :=
     _itemSize st; _scrollPosition := _scrollPosition st; _scrollSize :=
     _scrollSize st; _scrollError := _scrollError st; _first := _first st;
     _last := _last st; _physicalMin := _physicalMin st; _physicalMax := v;
     _trace := _trace st |}.

Definition set_trace (v : list Event) (st : Layout1d) : Layout1d :=
  {| _physicalItems := _physicalItems st; _newPhysicalItems :=
     _newPhysicalItems st; _metrics := _metrics st; _anchorIdx := _anchorIdx
     st; _anchorPos := _anchorPos st; _stable := _stable st; _needsRemeasure
     := _needsRemeasure st; _nMeasured := _nMeasured st; _tMeasured :=
     _tMeasured st; _estimate := _estimate st; _totalItems := _totalItems
     st; _viewDim1 := _viewDim1 st; _overhang := _overhang st; _spacing :=
     _spacing st; _delta := _delta st; _sizeDim := _sizeDim st; _itemSize :=
     _itemSize st; _scrollPosition := _scrollPosition st; _scrollSize :=
     _scrollSize st; _scrollError := _scrollError st; _first := _first st;
     _last := _last st; _physicalMin := _physicalMin st; _physicalMax :=
     _physicalMax st; _trace := v |}.

(** ** Outcomes *)

(** A call returns, throws (a property read on [undefined]), or never
    returns.  [OutOfFuel] is the artefact of bounding the one unbounded
    loop; [anchorSearch_fuel] shows it is never produced by [_getAnchor]. *)
Inductive outcome (A : Type) : Type :=
| Ret (a : A)
| Throws
| Diverges
| OutOfFuel.
Arguments Ret {A} a.
Arguments Throws {A}.
Arguments Diverges {A}.
Arguments OutOfFuel {A}.

#[global] Instance outcome_bind : MBind outcome := fun A B k m =>
  match m with
  | Ret a => k a
  | Throws => Throws
  | Diverges => Diverges
  | OutOfFuel => OutOfFuel
  end.

(** ** JavaScript arithmetic *)

(** [Math.round(t / n)]: nearest integer, ties towards +infinity, that is
    [floor (t/n + 1/2)]; meaningful for [n <> 0]. *)
Definition Math_round_div (t n : Z) : Z := (2 * t + n) / (2 * n).

(** [x || 0] on an optional number. *)
Definition orZero (x : option Z) : Z := default 0 x.

(** [if (x)] on a number: every value but 0 is truthy. *)
Definition truthy (x : Z) : bool := negb (x =? 0).

Definition log (e : Event) (st : Layout1d) : Layout1d :=
  set_trace (e :: _trace st) st.

(** ** Getters of the base class *)

(** Modelled from the spec: [_itemDim1], a getter of [Layout1dBase] that is
    not part of the sources, is "the default/estimated per-item size", the
    average item size along the scroll axis that [_updateItemSize] stores
    in [_itemSize[_sizeDim]]. *)
Definition _itemDim1 (st : Layout1d) : Z := dim_get (_sizeDim st) (_itemSize st).

(** Modelled from the spec: [_itemDim2], the item size along the other
    axis. *)
Definition _itemDim2 (st : Layout1d) : Z :=
  dim_get (other_dim (_sizeDim st)) (_itemSize st).

(** Modelled from the spec: [_scheduleReflow] of [Layout1dBase], the
    "schedule a reflow" capability; the request is all the host sees. *)
Definition _scheduleReflow (st : Layout1d) : Layout1d := log ScheduleReflow st.

(** ** Size-estimate aggregation *)

Definition _getPhysicalItem (st : Layout1d) (idx : Z) : option ItemBounds :=
  match _newPhysicalItems st !! idx with
  | Some item => Some item
  | None => _physicalItems st !! idx
  end.

Definition _getSize (st : Layout1d) (idx : Z) : option Z :=
  size <$> _getPhysicalItem st idx.

Definition with_size (s : Z) (item : ItemBounds) : ItemBounds :=
  {| pos := pos item; size := s |}.

(** [item.size = size] on the object [_getPhysicalItem] returned: the
    entry of the map it was found in. *)
Definition set_item_size (idx s : Z) (st : Layout1d) : Layout1d :=
  match _newPhysicalItems st !! idx with
  | Some _ => set_newPhysicalItems (alter (with_size s) idx (_newPhysicalItems st)) st
  | None => set_physicalItems (alter (with_size s) idx (_physicalItems st)) st
  end.

(** The box stored for a measurement: margins are added on each axis. *)
Definition box_metrics (metrics : ItemBox) : Size :=
  {| width := box_width metrics + orZero (marginLeft metrics)
              + orZero (marginRight metrics);
     height := box_height metrics + orZero (marginTop metrics)
               + orZero (marginBottom metrics) |}.

(** One iteration of the [forEach] of [updateItemSizes].  Both fields of
    [mi] have just been assigned, so [size !== undefined] holds and the
    branch it guards is always taken.  The sizes are integers here; the
    source adds them as it gets them, unrounded, so that for sizes with a
    fractional part [_tMeasured] is a sum of doubles ([Doubles.measureFirst]
    below). *)
Definition measureItem (st : Layout1d) (entry : Z * ItemBox) : Layout1d :=
  let key := fst entry in
  let prevSize := dim_get (_sizeDim st) <$> (_metrics st !! key) in
  let mi := box_metrics (snd entry) in
  let st := set_metrics (<[key := mi]> (_metrics st)) st in
  let size := dim_get (_sizeDim st) mi in
  match _getPhysicalItem st key with
  | Some _ =>
      let st := set_item_size key size st in
      match prevSize with
      | None =>
          let st := set_nMeasured (_nMeasured st + 1) st in
          set_tMeasured (_tMeasured st + size) st
      | Some prev => set_tMeasured (_tMeasured st + (size - prev)) st
      end
  | None => st
  end.

Definition _updateItemSize (st : Layout1d) : Layout1d :=
  set_itemSize
    (dim_set (_sizeDim st) (Math_round_div (_tMeasured st) (_nMeasured st))
       (_itemSize st)) st.

(** [sizes] is the object's entries in the order [Object.keys] lists
    them. *)
Definition updateItemSizes (sizes : list (Z * ItemBox)) (st : Layout1d) : Layout1d :=
  let st := fold_left measureItem sizes st in
  if _nMeasured st =? 0 then log (ConsoleWarn "No items measured yet.") st
  else _scheduleReflow (_updateItemSize st).

(** ** Positions and anchors *)

Definition _getPosition (st : Layout1d) (idx : Z) : Z :=
  match _physicalItems st !! idx with
  | Some item => pos item
  | None => idx * _delta st + _spacing st
  end.

(** [Math.floor(((lower + upper) / 2) / this._delta)] is
    [(lower + upper) / (2 * _delta)] in floor division, for [_delta <> 0].
    At [_delta = 0] the source divides to an infinity, which the clamp
    turns into an end of the list, or, for [lower + upper = 0], to [NaN],
    which it returns: this definition is the source's for [_delta <> 0]
    only. *)
Definition _calculateAnchor (st : Layout1d) (lower upper : Z) : Z :=
  if lower =? 0 then 0
  else if _scrollSize st - _viewDim1 st <? upper then _totalItems st - 1
  else Z.max 0 (Z.min (_totalItems st - 1) ((lower + upper) / (2 * _delta st))).

(** The [while (true)] of [_getAnchor].  [Math.round] of a half-integer
    rounds up.  An iteration that changes neither [minIdx] nor [maxIdx]
    repeats for ever. *)
Fixpoint anchorSearch (fuel : nat) (items : gmap Z ItemBounds)
    (lower upper minIdx maxIdx : Z) : outcome Z :=
  match fuel with
  | O => OutOfFuel
  | S fuel =>
      let candidateIdx := (maxIdx + minIdx + 1) / 2 in
      match items !! candidateIdx with
      | None => Throws
      | Some candidate =>
          let cMin := pos candidate in
          let cMax := cMin + size candidate in
          if ((lower <=? cMin) && (cMin <=? upper))
             || ((lower <=? cMax) && (cMax <=? upper))
          then Ret candidateIdx
          else if cMax <? lower then
            if candidateIdx + 1 =? minIdx then Diverges
            else anchorSearch fuel items lower upper (candidateIdx + 1) maxIdx
          else if upper <? cMin then
            if candidateIdx - 1 =? maxIdx then Diverges
            else anchorSearch fuel items lower upper minIdx (candidateIdx - 1)
          else Diverges
      end
  end.

Definition searchFuel (minIdx maxIdx : Z) : nat :=
  Z.to_nat (Z.abs (maxIdx - minIdx) + 3).

(** What decreases with every iteration of the search that changes
    [minIdx] or [maxIdx]. *)
Definition searchMeasure (minIdx maxIdx : Z) : Z :=
  if 0 <=? maxIdx - minIdx then maxIdx - minIdx + 3
  else if maxIdx - minIdx =? -1 then 2
  else minIdx - maxIdx - 1.

Definition _getAnchor (st : Layout1d) (lower upper : Z) : outcome (Z * Layout1d) :=
  if decide (_physicalItems st = ∅) then Ret (_calculateAnchor st lower upper, st)
  else if _first st <? 0 then
    let st := log (ConsoleError "_getAnchor: negative _first") st in
    Ret (_calculateAnchor st lower upper, st)
  else if _last st <? 0 then
    let st := log (ConsoleError "_getAnchor: negative _last") st in
    Ret (_calculateAnchor st lower upper, st)
  else
    match _getPhysicalItem st (_first st), _getPhysicalItem st (_last st) with
    | Some firstItem, Some lastItem =>
        let firstMin := pos firstItem in
        let firstMax := firstMin + size firstItem in
        let lastMin := pos lastItem in
        let lastMax := lastMin + size lastItem in
        if lastMax <? lower then Ret (_calculateAnchor st lower upper, st)
        else if upper <? firstMin then Ret (_calculateAnchor st lower upper, st)
        else if (lower <=? firstMin) || (lower <=? firstMax) then Ret (_first st, st)
        else if (lastMax <=? upper) || (lastMin <=? upper) then Ret (_last st, st)
        else
          idx ← anchorSearch (searchFuel (_first st) (_last st))
                  (_physicalItems st) lower upper (_first st) (_last st);
          Ret (idx, st)
    | _, _ => Throws
    end.

(** ** The window *)

Definition _clearItems (st : Layout1d) : Layout1d :=
  let st := set_first (-1) st in
  let st := set_last (-1) st in
  let st := set_physicalMin 0 st in
  let st := set_physicalMax 0 st in
  let items := _newPhysicalItems st in
  let st := set_newPhysicalItems (_physicalItems st) st in
  let st := set_newPhysicalItems ∅ st in
  let st := set_physicalItems items st in
  set_stable true st.

(** [items.set(idx, item)]: during [_getItems] the local [items] is the map
    held by [_newPhysicalItems]. *)
Definition items_set (idx : Z) (item : ItemBounds) (st : Layout1d) : Layout1d :=
  set_newPhysicalItems (<[idx := item]> (_newPhysicalItems st)) st.

(** The guards and the bodies of the two growth loops.  A size that is
    not known clears [_stable] and is replaced by the estimate. *)
Definition backwardGuard (lower : Z) (st : Layout1d) : bool :=
  (lower <? _physicalMin st) && (0 <? _first st).

Definition backwardStep (st : Layout1d) : Layout1d :=
  let st := set_first (_first st - 1) st in
  let known := _getSize st (_first st) in
  let st := match known with Some _ => st | None => set_stable false st end in
  let size := default (_itemDim1 st) known in
  let pos := _physicalMin st - (size + _spacing st) in
  let st := set_physicalMin pos st in
  items_set (_first st) {| pos := pos; size := size |} st.

Definition forwardGuard (upper : Z) (st : Layout1d) : bool :=
  (_physicalMax st <? upper) && (_last st <? _totalItems st).

(** The body up to the [break]; [forwardAdvance] is its [else] branch. *)
Definition forwardStep (st : Layout1d) : Layout1d :=
  let known := _getSize st (_last st) in
  let st := match known with Some _ => st | None => set_stable false st end in
  let size := default (_itemDim1 st) known in
  let st := items_set (_last st) {| pos := _physicalMax st; size := size |} st in
  set_last (_last st + 1) st.

Definition forwardAdvance (size : Z) (st : Layout1d) : Layout1d :=
  set_physicalMax (_physicalMax st + (size + _spacing st)) st.

(** [this._stable === false && this._estimate === false] *)
Definition stopEstimating (st : Layout1d) : bool :=
  negb (_stable st) && negb (_estimate st).

(** [while (this._physicalMin > lower && this._first > 0)].  Every
    iteration decrements [_first], which is positive in the guard: the
    loop makes at most [Z.to_nat (_first st)] iterations, the number it is
    run with. *)
Fixpoint growBackward (n : nat) (lower : Z) (st : Layout1d) : Layout1d :=
  match n with
  | O => st
  | S n =>
      if backwardGuard lower st then
        let st := backwardStep st in
        if stopEstimating st then st else growBackward n lower st
      else st
  end.

(** [while (this._physicalMax < upper && this._last < this._totalItems)],
    which makes at most [_totalItems - _last] iterations. *)
Fixpoint growForward (n : nat) (upper : Z) (st : Layout1d) : Layout1d :=
  match n with
  | O => st
  | S n =>
      if forwardGuard upper st then
        let size := default (_itemDim1 st) (_getSize st (_last st)) in
        let st := forwardStep st in
        if stopEstimating st then st
        else growForward n upper (forwardAdvance size st)
      else st
  end.

Definition _calculateError (st : Layout1d) : Z :=
  if _first st =? 0 then _physicalMin st
  else if _physicalMin st <=? 0 then _physicalMin st - _first st * _delta st
  else if _last st =? _totalItems st - 1 then _physicalMax st - _scrollSize st
  else if _scrollSize st <=? _physicalMax st then
    (_physicalMax st - _scrollSize st)
    + (_totalItems st - 1 - _last st) * _delta st
  else 0.

Definition shift (err : Z) (item : ItemBounds) : ItemBounds :=
  {| pos := pos item - err; size := size item |}.

(** The block guarded by [if (extentErr)]. *)
Definition applyExtentError (extentErr : Z) (st : Layout1d) : Layout1d :=
  let st := set_physicalMin (_physicalMin st - extentErr) st in
  let st := set_physicalMax (_physicalMax st - extentErr) st in
  let st := set_anchorPos ((fun p => p - extentErr) <$> _anchorPos st) st in
  let st := set_scrollPosition (_scrollPosition st - extentErr) st in
  let st := set_newPhysicalItems (shift extentErr <$> _newPhysicalItems st) st in
  set_scrollError (_scrollError st + extentErr) st.

(** The swap of the two maps at the end of a stable pass. *)
Definition commitItems (st : Layout1d) : Layout1d :=
  let items := _newPhysicalItems st in
  let st := set_newPhysicalItems (_physicalItems st) st in
  let st := set_newPhysicalItems ∅ st in
  set_physicalItems items st.

(** [_getItems] from the seeding of the anchor to the end of the two
    loops and the final [this._last--]; [lower] and [upper] are the locals
    after the anchor correction. *)
Definition seedAnchor (anchorIdx anchorPos anchorSize : Z) (st : Layout1d) : Layout1d :=
  let st := items_set anchorIdx {| pos := anchorPos; size := anchorSize |} st in
  let st := set_last anchorIdx st in
  let st := set_first anchorIdx st in
  let st := set_physicalMax anchorPos st in
  let st := set_physicalMin anchorPos st in
  set_stable true st.

Definition grownItems (anchorIdx anchorPos anchorSize lower upper : Z)
    (st : Layout1d) : Layout1d :=
  let st := seedAnchor anchorIdx anchorPos anchorSize st in
  let st := growBackward (Z.to_nat (_first st)) lower st in
  let st := growForward (Z.to_nat (_totalItems st - _last st)) upper st in
  set_last (_last st - 1) st.

(** The extent-error correction that follows. *)
Definition correctExtent (st : Layout1d) : Layout1d :=
  let extentErr := _calculateError st in
  if truthy extentErr then applyExtentError extentErr st else st.

Definition anchorError (anchorPos anchorSize lower upper : Z) (st : Layout1d) : Z :=
  let anchorErr :=
    if anchorPos + anchorSize + _spacing st <? lower
    then lower - (anchorPos + anchorSize + _spacing st) else 0 in
  if upper <? anchorPos then upper - anchorPos else anchorErr.

(** The block guarded by [if (anchorErr)], on the fields. *)
Definition applyAnchorError (anchorErr : Z) (st : Layout1d) : Layout1d :=
  let st := set_scrollPosition (_scrollPosition st - anchorErr) st in
  set_scrollError (_scrollError st + anchorErr) st.

(** [_getItems] from the reading of the anchor size to the final
    [this._last--], for the anchor held by [_anchorIdx] and [_anchorPos]. *)
Definition anchoredGrowth (anchorIdx anchorPos lower upper : Z)
    (st : Layout1d) : Layout1d :=
  let anchorSize := default (_itemDim1 st) (_getSize st anchorIdx) in
  let anchorErr := anchorError anchorPos anchorSize lower upper st in
  if truthy anchorErr then
    grownItems anchorIdx anchorPos anchorSize
      (lower - anchorErr) (upper - anchorErr) (applyAnchorError anchorErr st)
  else grownItems anchorIdx anchorPos anchorSize lower upper st.

(** [_getItems] up to the computation of the extent error: the anchor is
    chosen if none is held, and the window is grown around it. *)
Definition grownPass (lower upper : Z) (st : Layout1d) : outcome Layout1d :=
  match _anchorIdx st, _anchorPos st with
  | Some anchorIdx, Some anchorPos =>
      Ret (anchoredGrowth anchorIdx anchorPos lower upper st)
  | _, _ =>
      '(anchorIdx, st) ← _getAnchor st lower upper;
      let st := set_anchorIdx (Some anchorIdx) st in
      let anchorPos := _getPosition st anchorIdx in
      let st := set_anchorPos (Some anchorPos) st in
      Ret (anchoredGrowth anchorIdx anchorPos lower upper st)
  end.

(** [_getItems] up to its last statement: the window is grown and
    corrected, and not yet committed. *)
Definition windowPass (lower upper : Z) (st : Layout1d) : outcome Layout1d :=
  st ← grownPass lower upper st;
  Ret (correctExtent st).

(** [if (this._stable) { ... }], the last statement. *)
Definition commitIfStable (st : Layout1d) : Layout1d :=
  if _stable st then commitItems st else st.

Definition _getItems (lower upper : Z) (st : Layout1d) : outcome Layout1d :=
  st ← windowPass lower upper st;
  Ret (commitIfStable st).

Definition _getActiveItems (st : Layout1d) : outcome Layout1d :=
  if (_viewDim1 st =? 0) || (_totalItems st =? 0) then Ret (_clearItems st)
  else
    let upper := Z.min (_scrollSize st)
                   (_scrollPosition st + _viewDim1 st + _overhang st) in
    let lower := Z.max 0 (upper - _viewDim1 st - 2 * _overhang st) in
    _getItems lower upper st.

(** ** Queries *)

(** The objects [_getItemPosition] and [_getItemSize] build, by axis:
    the value along the scroll axis and the value along the other one. *)
Definition _getItemPosition (st : Layout1d) (idx : Z) : Z * Z :=
  (_getPosition st idx, 0).

(** [this._getSize(idx) || this._itemDim1]: [undefined] and 0 are falsy. *)
Definition _getItemSize (st : Layout1d) (idx : Z) : Size :=
  let size1 :=
    match _getSize st idx with
    | Some s => if truthy s then s else _itemDim1 st
    | None => _itemDim1 st
    end in
  dim_set (other_dim (_sizeDim st)) (_itemDim2 st)
    (dim_set (_sizeDim st) size1 {| width := 0; height := 0 |}).

(** ** Reflow *)

(** The methods of [Layout1dBase] that [_reflow] calls and that act on the
    instance; the base class is not part of the sources, so a reflow is
    stated for any implementation of them. *)
Class Layout1dBase : Type := {
  super_updateScrollSize : Layout1d -> Layout1d;
  _scrollIfNeeded : Layout1d -> Layout1d;
  _updateVisibleIndices : Layout1d -> Layout1d
}.

(** Modelled from the spec: the [_emit...] callbacks of [Layout1dBase],
    absent from the sources, hand to the host "content total size along
    scroll axis", the range "{first, last, stable, remeasure}",
    "per-index position+size pairs for every index in [first, last]" and
    the scroll-position correction. *)
Definition _emitScrollSize (st : Layout1d) : Layout1d :=
  log (EmitScrollSize (_scrollSize st)) st.

Definition super_emitRange (remeasure stable : bool) (st : Layout1d) : Layout1d :=
  log (EmitRange (_first st) (_last st) remeasure stable) st.

Definition childPositions (st : Layout1d) : list (Z * (Z * Z)) :=
  (fun idx => (idx, (fst (_getItemPosition st idx),
                     dim_get (_sizeDim st) (_getItemSize st idx))))
    <$> seqZ (_first st) (_last st - _first st + 1).

Definition _emitChildPositions (st : Layout1d) : Layout1d :=
  log (EmitChildPositions (childPositions st)) st.

Definition _emitScrollError (st : Layout1d) : Layout1d :=
  log (EmitScrollError (_scrollError st)) st.

Definition _emitRange (st : Layout1d) : Layout1d :=
  let remeasure := _needsRemeasure st in
  let stable := _stable st in
  let st := set_needsRemeasure false st in
  super_emitRange remeasure stable st.

Definition _resetReflowState (st : Layout1d) : Layout1d :=
  let st := set_anchorIdx None st in
  let st := set_anchorPos None st in
  set_stable true st.

Definition _updateScrollSize `{Layout1dBase} (st : Layout1d) : Layout1d :=
  let st := super_updateScrollSize st in
  set_scrollSize (Z.max (_physicalMax st) (_scrollSize st)) st.

Definition _reflow `{Layout1dBase} (st : Layout1d) : outcome Layout1d :=
  let first0 := _first st in
  let last0 := _last st in
  let scrollSize0 := _scrollSize st in
  let st := _updateScrollSize st in
  st ← _getActiveItems st;
  let st := _scrollIfNeeded st in
  let st := if _scrollSize st =? scrollSize0 then st else _emitScrollSize st in
  let st := _updateVisibleIndices st in
  let st := _emitRange st in
  if (_first st =? -1) && (_last st =? -1) then Ret (_resetReflowState st)
  else if negb (_first st =? first0) || negb (_last st =? last0)
          || _needsRemeasure st then
    Ret (_emitScrollError (_emitChildPositions st))
  else
    Ret (_resetReflowState (_emitScrollError (_emitChildPositions st))).

Definition _viewDim2Changed (st : Layout1d) : Layout1d :=
  _scheduleReflow (set_needsRemeasure true st).

(** ** A concrete layout, for the examples *)

(** A newly constructed layout (the field initialisers of the class) for
    [totalItems] items of estimated size [itemDim1] along the height. *)
Definition fresh (totalItems itemDim1 spacing viewDim1 overhang scrollPosition : Z)
    : Layout1d :=
  {| _physicalItems := ∅; _newPhysicalItems := ∅; _metrics := ∅;
     _anchorIdx := None; _anchorPos := None; _stable := true;
     _needsRemeasure := false; _nMeasured := 0; _tMeasured := 0;
     _estimate := true;
     _totalItems := totalItems; _viewDim1 := viewDim1; _overhang := overhang;
     _spacing := spacing; _delta := itemDim1 + spacing; _sizeDim := Height;
     _itemSize := {| width := itemDim1; height := itemDim1 |};
     _scrollPosition := scrollPosition;
     _scrollSize := totalItems * (itemDim1 + spacing);
     _scrollError := 0; _first := -1; _last := -1;
     _physicalMin := 0; _physicalMax := 0; _trace := [] |}.

(** ** Specification-side definitions *)

(** The case analysis of the specification, in its own words. *)
Definition extentError_spec
    (first last totalItems physicalMin physicalMax totalContentSize averageDelta : Z)
    : Z :=
  if decide (first = 0) then physicalMin
  else if decide (physicalMin <= 0) then physicalMin - first * averageDelta
  else if decide (last = totalItems - 1) then physicalMax - totalContentSize
  else if decide (physicalMax >= totalContentSize) then
    (physicalMax - totalContentSize) + (totalItems - 1 - last) * averageDelta
  else 0.

(** ** Example layouts *)

(** A committed item of size 0 next to an index that is in no window. *)
Definition zeroSized : Layout1d :=
  set_physicalItems {[ 3 := {| pos := 150; size := 0 |} ]} (fresh 1000 50 0 500 0 0).

(** ** Measurement runs *)

(** What the methods other than [updateItemSizes] leave alone: the stored
    metrics, the two counters and the scroll axis. *)
Definition sameAccounts (st st' : Layout1d) : Prop :=
  _metrics st' = _metrics st /\ _nMeasured st' = _nMeasured st /\
  _tMeasured st' = _tMeasured st /\ _sizeDim st' = _sizeDim st.

(** A run of [updateItemSizes] calls from [st0]; between two calls the
    layout may change in any way that keeps the accounts, and every index a
    call measures is then in the in-progress or the committed window. *)
Inductive measuredRun (st0 : Layout1d) :
    list (list (Z * ItemBox)) -> Layout1d -> Prop :=
| run_start : measuredRun st0 [] st0
| run_call calls st st' sizes :
    measuredRun st0 calls st ->
    sameAccounts st st' ->
    (forall entry, entry ∈ sizes -> is_Some (_getPhysicalItem st' (fst entry))) ->
    measuredRun st0 (calls ++ [sizes]) (updateItemSizes sizes st').

(** The effective size of a measured box along axis [d]. *)
Definition effectiveSize (d : Dim) (box : ItemBox) : Z :=
  match d with
  | Width => box_width box + orZero (marginLeft box) + orZero (marginRight box)
  | Height => box_height box + orZero (marginTop box) + orZero (marginBottom box)
  end.

Definition recordSizes (d : Dim) (m : gmap Z Z) (sizes : list (Z * ItemBox))
    : gmap Z Z :=
  fold_left (fun m entry => <[fst entry := effectiveSize d (snd entry)]> m) sizes m.

(** The latest effective size of every item measured by a run. *)
Definition latestSizes (d : Dim) (calls : list (list (Z * ItemBox))) : gmap Z Z :=
  fold_left (recordSizes d) calls ∅.

Definition sumSizes (m : gmap Z Z) : Z := map_fold (fun _ s acc => s + acc) 0 m.

(** [round (sum of the sizes / number of items)] *)
Definition averageSize (m : gmap Z Z) : Z :=
  Math_round_div (sumSizes m) (Z.of_nat (base.size m)).

(** An item in the committed window before anything was measured, and a
    first measurement of it. *)
Definition oneCommitted : Layout1d :=
  set_physicalItems {[ 0 := {| pos := 0; size := 50 |} ]} (fresh 1000 50 0 500 0 0).

Definition box (w h : Z) : ItemBox :=
  {| box_width := w; box_height := h; marginLeft := None; marginRight := None;
     marginTop := None; marginBottom := None |}.

(** The accounts of a layout agree with the sizes [m]: [m] is what the
    stored metrics say along the scroll axis, [_nMeasured] counts its
    items and [_tMeasured] is their sum. *)
Definition accounted (st : Layout1d) (m : gmap Z Z) : Prop :=
  dim_get (_sizeDim st) <$> _metrics st = m /\
  _nMeasured st = Z.of_nat (base.size m) /\
  _tMeasured st = sumSizes m.

(** Two items in the in-progress window of a layout on which nothing has
    been measured, and two calls measuring them. *)
Definition twoWindowed : Layout1d :=
  set_newPhysicalItems
    {[ 0 := {| pos := 0; size := 50 |}; 1 := {| pos := 50; size := 50 |} ]}
    (fresh 1000 50 0 500 0 0).

Definition firstCall : list (Z * ItemBox) := [(0, box 300 100); (1, box 300 60)].
Definition secondCall : list (Z * ItemBox) := [(0, box 300 80)].

(** ** Invariants of a window pass *)

(** The fields a window pass reads and never writes. *)
Record sameHost (st0 st : Layout1d) : Prop := {
  host_metrics : _metrics st = _metrics st0;
  host_needsRemeasure : _needsRemeasure st = _needsRemeasure st0;
  host_nMeasured : _nMeasured st = _nMeasured st0;
  host_tMeasured : _tMeasured st = _tMeasured st0;
  host_estimate : _estimate st = _estimate st0;
  host_totalItems : _totalItems st = _totalItems st0;
  host_viewDim1 : _viewDim1 st = _viewDim1 st0;
  host_overhang : _overhang st = _overhang st0;
  host_spacing : _spacing st = _spacing st0;
  host_delta : _delta st = _delta st0;
  host_sizeDim : _sizeDim st = _sizeDim st0;
  host_itemSize : _itemSize st = _itemSize st0;
  host_scrollSize : _scrollSize st = _scrollSize st0;
  host_trace : _trace st = _trace st0
}.

(** What the growth loops never write: every field but [_first], [_last],
    [_physicalMin], [_physicalMax], [_newPhysicalItems] and [_stable]. *)
Record sameOutside (st0 st : Layout1d) : Prop := {
  same_physicalItems : _physicalItems st = _physicalItems st0;
  same_metrics : _metrics st = _metrics st0;
  same_anchorIdx : _anchorIdx st = _anchorIdx st0;
  same_anchorPos : _anchorPos st = _anchorPos st0;
  same_needsRemeasure : _needsRemeasure st = _needsRemeasure st0;
  same_nMeasured : _nMeasured st = _nMeasured st0;
  same_tMeasured : _tMeasured st = _tMeasured st0;
  same_estimate : _estimate st = _estimate st0;
  same_totalItems : _totalItems st = _totalItems st0;
  same_viewDim1 : _viewDim1 st = _viewDim1 st0;
  same_overhang : _overhang st = _overhang st0;
  same_spacing : _spacing st = _spacing st0;
  same_delta : _delta st = _delta st0;
  same_sizeDim : _sizeDim st = _sizeDim st0;
  same_itemSize : _itemSize st = _itemSize st0;
  same_scrollPosition : _scrollPosition st = _scrollPosition st0;
  same_scrollSize : _scrollSize st = _scrollSize st0;
  same_scrollError : _scrollError st = _scrollError st0;
  same_trace : _trace st = _trace st0
}.

(** The entries of [items] from [lo] to [hi] exist and follow one another:
    each starts where the one before ends, plus the spacing. *)
Definition contiguous (spacing : Z) (items : gmap Z ItemBounds) (lo hi : Z) : Prop :=
  forall i, lo <= i < hi ->
    exists b b', items !! i = Some b /\ items !! (i + 1) = Some b' /\
                 pos b + size b + spacing = pos b'.

(** The state of the window being grown around the anchor [a], seeded at
    position [p] with size [z], in a pass that started from [orig].  During
    the loops [_last] is exclusive. *)
Record windowInv (orig : Layout1d) (a p z : Z) (st : Layout1d) : Prop := {
  wi_outside : sameOutside orig st;
  wi_first_le : _first st <= a;
  wi_last_ge : a <= _last st;
  wi_first_ge : 0 <= a -> 0 <= _first st;
  wi_last_le : a < _totalItems orig -> _last st <= _totalItems orig;
  wi_contiguous :
    contiguous (_spacing orig) (_newPhysicalItems st) (_first st)
      (Z.max a (_last st - 1));
  wi_head :
    exists b, _newPhysicalItems st !! _first st = Some b /\ pos b = _physicalMin st;
  wi_anchor : _newPhysicalItems st !! a = Some {| pos := p; size := z |};
  wi_bare : _first st = a -> _physicalMin st = p;
  wi_below :
    forall i, i < _first st -> i <> a ->
      _newPhysicalItems st !! i = _newPhysicalItems orig !! i;
  wi_above :
    forall i, _last st <= i -> i <> a ->
      _newPhysicalItems st !! i = _newPhysicalItems orig !! i;
  wi_stable :
    _stable st = true <->
    forall i, _first st <= i < _last st -> i <> a -> is_Some (_getPhysicalItem orig i)
}.

(** At the head of the forward loop [_physicalMax] is the end of the last
    item inserted, or the start of the anchor when none was. *)
Definition atEnd (orig : Layout1d) (a p : Z) (st : Layout1d) : Prop :=
  (_last st = a /\ _physicalMax st = p) \/
  (a < _last st /\
   exists b, _newPhysicalItems st !! (_last st - 1) = Some b /\
             _physicalMax st = pos b + size b + _spacing orig).

(** The window once the loops are done and [_last] is inclusive again. *)
Record grownWindow (orig : Layout1d) (a p z : Z) (st : Layout1d) : Prop := {
  gw_outside : sameOutside orig st;
  gw_first_le : _first st <= a;
  gw_last_ge : a - 1 <= _last st;
  gw_first_ge : 0 <= a -> 0 <= _first st;
  gw_last_le : a < _totalItems orig -> _last st <= _totalItems orig - 1;
  gw_contiguous :
    contiguous (_spacing orig) (_newPhysicalItems st) (_first st) (_last st);
  gw_entries :
    forall i, _first st <= i <= _last st -> is_Some (_newPhysicalItems st !! i);
  gw_head :
    exists b, _newPhysicalItems st !! _first st = Some b /\ pos b = _physicalMin st;
  gw_anchor : _newPhysicalItems st !! a = Some {| pos := p; size := z |};
  gw_elsewhere :
    forall i, i < _first st \/ _last st < i -> i <> a ->
      _newPhysicalItems st !! i = _newPhysicalItems orig !! i;
  gw_stable :
    _stable st = true <->
    forall i, _first st <= i <= _last st -> i <> a -> is_Some (_getPhysicalItem orig i);
  gw_range :
    _first st <= _last st \/
    (_first st = a /\ _last st = a - 1 /\ _physicalMin st = p /\ _physicalMax st = p)
}.

(** [st0] is the state in which a pass from [st] starts growing its window
    around the anchor [a] at [p]: the anchor is held, and whatever the
    choice and the correction of the anchor write (the scroll position, the
    scroll error, the console) may differ from [st]. *)
Record passStart (st st0 : Layout1d) (a p : Z) : Prop := {
  ps_anchorIdx : _anchorIdx st0 = Some a;
  ps_anchorPos : _anchorPos st0 = Some p;
  ps_physicalItems : _physicalItems st0 = _physicalItems st;
  ps_newPhysicalItems : _newPhysicalItems st0 = _newPhysicalItems st;
  ps_metrics : _metrics st0 = _metrics st;
  ps_needsRemeasure : _needsRemeasure st0 = _needsRemeasure st;
  ps_nMeasured : _nMeasured st0 = _nMeasured st;
  ps_tMeasured : _tMeasured st0 = _tMeasured st;
  ps_estimate : _estimate st0 = _estimate st;
  ps_totalItems : _totalItems st0 = _totalItems st;
  ps_viewDim1 : _viewDim1 st0 = _viewDim1 st;
  ps_overhang : _overhang st0 = _overhang st;
  ps_spacing : _spacing st0 = _spacing st;
  ps_delta : _delta st0 = _delta st;
  ps_sizeDim : _sizeDim st0 = _sizeDim st;
  ps_itemSize : _itemSize st0 = _itemSize st;
  ps_scrollSize : _scrollSize st0 = _scrollSize st
}.

(** What a call returned, for the examples. *)
Definition returned (o : outcome Layout1d) (otherwise : Layout1d) : Layout1d :=
  match o with Ret st => st | _ => otherwise end.

(** Scenario 1 of the specification: 1000 items estimated at 50, a
    viewport of 500 at the top of the list. *)
Definition scenario1 : Layout1d := fresh 1000 50 0 500 0 0.

(** The same list seen through a viewport of 40: the anchor alone fills
    it. *)
Definition narrowView : Layout1d := fresh 1000 50 0 40 0 0.

(** The same list scrolled to its end. *)
Definition atBottom : Layout1d := fresh 1000 50 0 500 0 49500.

(** A viewport of 5 in front of items spaced by 8. *)
Definition collapsedView : Layout1d := fresh 1000 50 8 5 0 0.

(** A list of two items, measured at 100 and 101 and committed: their
    average is 101 and the content is estimated at 202. *)
Definition twoMeasured : Layout1d :=
  {| _physicalItems :=
       {[ 0 := {| pos := 0; size := 100 |}; 1 := {| pos := 100; size := 101 |} ]};
     _newPhysicalItems := ∅;
     _metrics :=
       {[ 0 := {| width := 300; height := 100 |};
          1 := {| width := 300; height := 101 |} ]};
     _anchorIdx := None; _anchorPos := None; _stable := true;
     _needsRemeasure := false; _nMeasured := 2; _tMeasured := 201;
     _estimate := true;
     _totalItems := 2; _viewDim1 := 500; _overhang := 0;
     _spacing := 0; _delta := 101; _sizeDim := Height;
     _itemSize := {| width := 50; height := 101 |};
     _scrollPosition := 0; _scrollSize := 202;
     _scrollError := 0; _first := 0; _last := 1;
     _physicalMin := 0; _physicalMax := 201; _trace := [] |}.

(** ** Settled layouts *)

(** What the specification says of the three methods of the base class a
    reflow calls: the content size is recomputed, the scroll position may
    be clamped with the difference noted in the scroll error, and the
    visible indices, which are no part of the state modelled here, are
    recomputed. *)
Record baseFrame (Base : Layout1dBase) : Prop := {
  bf_updateScrollSize :
    forall st, exists v, super_updateScrollSize st = set_scrollSize v st;
  bf_scrollIfNeeded :
    forall st, exists p e,
      _scrollIfNeeded st = set_scrollError e (set_scrollPosition p st);
  bf_updateVisibleIndices : forall st, _updateVisibleIndices st = st
}.




(** A base class for the examples: the content is estimated at the number
    of items times the average item size, and no scroll request is
    pending. *)
#[global] Instance hostBase : Layout1dBase := {|
  super_updateScrollSize st := set_scrollSize (_totalItems st * _itemDim1 st) st;
  _scrollIfNeeded st := st;
  _updateVisibleIndices st := st
|}.

(** Items spaced by 10: the first pass, a scroll to 60 before the second,
    and two more passes during which nothing changes. *)
Definition spaced : Layout1d := fresh 1000 50 10 500 0 0.
Definition spacedPass1 : Layout1d := returned (_reflow spaced) spaced.

(** ** Passes that do not estimate *)

(** At most one index from [lo] up to, not including, [hi], the anchor [a]
    apart, has no entry in either window of [orig]. *)
Definition oneUnknown (orig : Layout1d) (a lo hi : Z) : Prop :=
  forall i j, lo <= i < hi -> lo <= j < hi -> i <> a -> j <> a ->
    _getPhysicalItem orig i = None -> _getPhysicalItem orig j = None -> i = j.

(** ** More layouts, for the examples *)

(** Scenario 1 after its first pass: items 0 to 9 are in the window in
    progress, estimated, and item 0 is held as the anchor. *)
Definition firstPass : Layout1d := returned (_getActiveItems scenario1) scenario1.

(** Scenario 1 with estimates switched off. *)
Definition measuring : Layout1d :=
  {| _physicalItems := ∅; _newPhysicalItems := ∅; _metrics := ∅;
     _anchorIdx := None; _anchorPos := None; _stable := true;
     _needsRemeasure := false; _nMeasured := 0; _tMeasured := 0;
     _estimate := false;
     _totalItems := 1000; _viewDim1 := 500; _overhang := 0;
     _spacing := 0; _delta := 50; _sizeDim := Height;
     _itemSize := {| width := 50; height := 50 |};
     _scrollPosition := 0; _scrollSize := 50000;
     _scrollError := 0; _first := -1; _last := -1;
     _physicalMin := 0; _physicalMax := 0; _trace := [] |}.

(** A committed item 0 under a range that names item 3 alone. *)
Definition strayRange : Layout1d := set_last 3 (set_first 3 oneCommitted).

(** Three committed items, the one in the middle taller than the viewport
    of 100, which shows its inside: from 100 to 200. *)
Definition tallItem : Layout1d :=
  set_last 2 (set_first 0
    (set_physicalItems
       {[ 0 := {| pos := 0; size := 50 |}; 1 := {| pos := 50; size := 500 |};
          2 := {| pos := 550; size := 50 |} ]}
       (fresh 3 200 0 100 0 100))).


(** The reflow that follows a change of the cross-axis size, and the one
    after it. *)
Definition resized : Layout1d := returned (_reflow (_viewDim2Changed spaced)) spaced.
Definition resizedAgain : Layout1d := returned (_reflow resized) spaced.

(** Item 0 measured at height 0 while it is in no window, the first pass,
    which lays it out at the estimate of 50, and a measurement of item 1 at
    150, which is the average from then on. *)
Definition zeroMeasured : Layout1d :=
  updateItemSizes [(1, box 300 150)]
    (returned (_getActiveItems (updateItemSizes [(0, box 300 0)] scenario1)) scenario1).

(** Scenario 1 after its first pass, with item 1 measured at 0 and item 2
    at 100 (the average stays 50), and the stable pass that follows; next
    to it the stable pass that follows when nothing is measured. *)
Definition zeroWindowed : Layout1d :=
  updateItemSizes [(1, box 300 0); (2, box 300 100)] firstPass.
Definition zeroLaidOut : Layout1d := returned (_getItems 0 500 zeroWindowed) zeroWindowed.
Definition estimatedLaidOut : Layout1d := returned (_getItems 0 500 firstPass) firstPass.


(** ** Measurements in doubles *)

(** The accounts of [updateItemSizes] as the source computes them, on
    IEEE 754 doubles, for items without margins that are in a window and
    are measured for the first time: [size] is
    [metrics.height + (undefined || 0) + (undefined || 0)], [_nMeasured] is
    incremented and [size] is added to [_tMeasured], whatever its
    fractional part; [_updateItemSize] rounds their quotient. *)
Module Doubles.
Import PrimFloat.

Record Accounts : Type := { nMeasured : float; tMeasured : float }.

(** [Math.round(x)]: the integer nearest to the value of the double [x],
    ties towards +infinity; no integer for [NaN] and the infinities.  A
    finite double is [m * 2 ^ e] for integers [m] and [e]. *)
Definition Math_round (x : float) : option Z :=
  match FloatOps.Prim2SF x with
  | SpecFloat.S754_zero _ => Some 0
  | SpecFloat.S754_finite negative m e =>
      let v := if negative then Z.neg m else Z.pos m in
      Some (if 0 <=? e then v * 2 ^ e else (2 * v + 2 ^ (- e)) / 2 ^ (1 - e))
  | _ => None
  end.

Definition measureFirst (accounts : Accounts) (height : float) : Accounts :=
  let size := (height + 0 + 0)%float in
  {| nMeasured := (nMeasured accounts + 1)%float;
     tMeasured := (tMeasured accounts + size)%float |}.

(** The average item size after first measurements of windowed items, in
    the order of their arrival, on a layout on which nothing had been
    measured. *)
Definition averageAfter (heights : list float) : option Z :=
  let accounts := fold_left measureFirst heights
      {| nMeasured := 0%float; tMeasured := 0%float |} in
  Math_round (tMeasured accounts / nMeasured accounts)%float.

(** The doubles nearest to 11.9, 32.4 and 14.2. *)
Definition height_11_9 : float := 0x1.7cccccccccccdp+3%float.
Definition height_32_4 : float := 0x1.0333333333333p+5%float.
Definition height_14_2 : float := 0x1.c666666666666p+3%float.

End Doubles.

(** * Properties *)

(** ** The extent error *)

(** C4. [_calculateError] returns the value of the specification's case
    analysis, taken in order: [physicalMin] when [first = 0]; else
    [physicalMin - first * averageDelta] when [physicalMin <= 0]; else
    [physicalMax - totalContentSize] when [last = totalItems - 1]; else
    [(physicalMax - totalContentSize) + (totalItems - 1 - last) * averageDelta]
    when [physicalMax >= totalContentSize]; else 0. *)
Theorem calculateError_refines_spec (st : Layout1d) :
  _calculateError st =
  extentError_spec (_first st) (_last st) (_totalItems st) (_physicalMin st)
    (_physicalMax st) (_scrollSize st) (_delta st).
Proof.
  unfold _calculateError, extentError_spec.
  destruct (Z.eqb_spec (_first st) 0); [by rewrite decide_True|].
  rewrite decide_False by done.
  destruct (Z.leb_spec (_physicalMin st) 0); [by rewrite decide_True|].
  rewrite (decide_False (P := _physicalMin st <= 0)) by lia.
  destruct (Z.eqb_spec (_last st) (_totalItems st - 1)); [by rewrite decide_True|].
  rewrite decide_False by done.
  destruct (Z.leb_spec (_scrollSize st) (_physicalMax st)).
  - by rewrite decide_True by lia.
  - by rewrite decide_False by lia.
Qed.

(** ** The empty range *)

(** C9. A pass entered with no items or with a viewport of extent 0
    returns normally with the range collapsed to [first = last = -1], the
    physical extent reset to 0 and the stable flag set; nothing is written
    to the console. *)
Theorem getActiveItems_empty (st : Layout1d) :
  _totalItems st = 0 \/ _viewDim1 st = 0 ->
  exists st',
    _getActiveItems st = Ret st' /\
    _first st' = -1 /\ _last st' = -1 /\
    _physicalMin st' = 0 /\ _physicalMax st' = 0 /\
    _stable st' = true /\ _trace st' = _trace st.
Proof.
  intros Hzero. exists (_clearItems st). unfold _getActiveItems.
  assert ((_viewDim1 st =? 0) || (_totalItems st =? 0) = true) as ->.
  { apply orb_true_iff. destruct Hzero as [H|H]; rewrite H; auto. }
  by cbn.
Qed.

(** The theorem at a list without items. *)
Lemma getActiveItems_empty_witness :
  exists st',
    _getActiveItems (fresh 0 50 0 500 0 0) = Ret st' /\
    _first st' = -1 /\ _last st' = -1 /\
    _physicalMin st' = 0 /\ _physicalMax st' = 0 /\
    _stable st' = true /\ _trace st' = [].
Proof. apply (getActiveItems_empty (fresh 0 50 0 500 0 0)). left. reflexivity. Defined.

(** ** Size queries *)

(** C10, as the code has it.  An index whose entry in the window in
    progress or in the committed window holds the size 0, as it does right
    after a measurement of 0 of an item in a window, is reported with the
    default estimate [_itemDim1] of the moment, so [_getItemSize] answers
    as it does for an index without any entry. *)
Theorem getItemSize_zero_is_estimate (st : Layout1d) (idx : Z) :
  _getSize st idx = Some 0 ->
  dim_get (_sizeDim st) (_getItemSize st idx) = _itemDim1 st /\
  forall st' : Layout1d,
    _sizeDim st' = _sizeDim st -> _itemSize st' = _itemSize st ->
    _getSize st' idx = None ->
    _getItemSize st' idx = _getItemSize st idx.
Proof.
  intros Hzero. unfold _getItemSize. rewrite Hzero. cbn. split.
  - by destruct (_sizeDim st).
  - intros st' Hdim Hsize Hnone. rewrite Hnone.
    unfold _itemDim1, _itemDim2. by rewrite Hdim, Hsize.
Qed.

Lemma getItemSize_zero_is_estimate_witness :
  _getSize zeroSized 3 = Some 0 /\
  dim_get (_sizeDim zeroSized) (_getItemSize zeroSized 3) = 50 /\
  _getItemSize (fresh 1000 50 0 500 0 0) 3 = _getItemSize zeroSized 3.
Proof.
  pose proof (getItemSize_zero_is_estimate zeroSized 3 eq_refl) as [H1 H2].
  split; [reflexivity|]. split; [exact H1|].
  apply H2; reflexivity.
Defined.

(** C10 as stated fails, in both halves.  The size: item 0 is measured at 0
    before it is in a window, the first pass gives it an entry of the
    estimate of that time, 50, and a measurement of item 1 moves the
    estimate to 150; the last measured size of item 0 is 0, and
    [_getItemSize] reports neither 0 nor the estimate, but 50.  The
    positions: with item 1 measured at 0 in its window, the stable pass
    that follows puts item 2 where item 1 starts, at 50, while item 1 is
    reported 50 high; had item 1 not been measured, the same pass would
    put item 2 at 100. *)
Lemma getItemSize_measured_zero_counterexample :
  (dim_get (_sizeDim zeroMeasured) <$> _metrics zeroMeasured !! 0 = Some 0 /\
   _itemDim1 zeroMeasured = 150 /\
   dim_get (_sizeDim zeroMeasured) (_getItemSize zeroMeasured 0) = 50) /\
  (_getSize zeroLaidOut 1 = Some 0 /\ _stable zeroLaidOut = true /\
   _getItemSize zeroLaidOut 1 = _getItemSize estimatedLaidOut 1 /\
   fst (_getItemPosition zeroLaidOut 1) = 50 /\
   fst (_getItemPosition zeroLaidOut 2) = 50 /\
   fst (_getItemPosition estimatedLaidOut 2) = 100).
Proof. by vm_compute. Qed.

(** ** Measurements *)

Lemma measureItem_frame (st : Layout1d) (entry : Z * ItemBox) :
  _trace (measureItem st entry) = _trace st /\
  _itemSize (measureItem st entry) = _itemSize st /\
  _sizeDim (measureItem st entry) = _sizeDim st.
Proof. unfold measureItem, set_item_size. by repeat case_match. Qed.

Lemma measureItems_frame (sizes : list (Z * ItemBox)) (st : Layout1d) :
  _trace (fold_left measureItem sizes st) = _trace st /\
  _itemSize (fold_left measureItem sizes st) = _itemSize st /\
  _sizeDim (fold_left measureItem sizes st) = _sizeDim st.
Proof.
  revert st. induction sizes as [|entry sizes IH]; intros st; [done|].
  cbn [fold_left]. destruct (IH (measureItem st entry)) as (-> & -> & ->).
  apply measureItem_frame.
Qed.

(** C8, as the code has it.  [updateItemSizes] first goes through the
    entries of the call; if the count of measured items is still 0 after
    that, it warns on the console, leaves the average item size alone and
    schedules no reflow; otherwise it sets the average along the scroll
    axis to [round (tMeasured / nMeasured)] and schedules a reflow.  Every
    call returns: no step of the method can throw. *)
Theorem updateItemSizes_warns_or_updates (sizes : list (Z * ItemBox)) (st : Layout1d) :
  let counted := fold_left measureItem sizes st in
  if _nMeasured counted =? 0 then
    _trace (updateItemSizes sizes st) = ConsoleWarn "No items measured yet." :: _trace st /\
    _itemSize (updateItemSizes sizes st) = _itemSize st
  else
    _trace (updateItemSizes sizes st) = ScheduleReflow :: _trace st /\
    _itemSize (updateItemSizes sizes st) =
      dim_set (_sizeDim st)
        (Math_round_div (_tMeasured counted) (_nMeasured counted)) (_itemSize st).
Proof.
  intros counted. unfold updateItemSizes. fold counted.
  destruct (measureItems_frame sizes st) as (Htrace & Hsize & Hdim). fold counted in Htrace, Hsize, Hdim.
  destruct (_nMeasured counted =? 0); cbn.
  - by rewrite Htrace, Hsize.
  - by rewrite Htrace, Hsize, Hdim.
Qed.

(** C8 as stated fails: a call made while nothing has been counted yet,
    measuring an item of the window, counts it, updates the average and
    schedules a reflow without any warning. *)
Lemma updateItemSizes_first_measurement_counterexample :
  _nMeasured oneCommitted = 0 /\
  _trace (updateItemSizes [(0, box 300 100)] oneCommitted) = [ScheduleReflow] /\
  _itemDim1 oneCommitted = 50 /\
  _itemDim1 (updateItemSizes [(0, box 300 100)] oneCommitted) = 100.
Proof. by vm_compute. Qed.

Lemma sumSizes_insert_fresh (m : gmap Z Z) (k v : Z) :
  m !! k = None -> sumSizes (<[k := v]> m) = v + sumSizes m.
Proof.
  intros Hnone. unfold sumSizes. rewrite map_fold_insert_L; [done| |done].
  intros; lia.
Qed.

Lemma sumSizes_insert (m : gmap Z Z) (k v : Z) :
  sumSizes (<[k := v]> m) = sumSizes m - default 0 (m !! k) + v.
Proof.
  destruct (m !! k) as [old|] eqn:Hk; cbn.
  - rewrite <- (insert_delete_eq m k v).
    rewrite sumSizes_insert_fresh by apply lookup_delete_eq.
    rewrite <- (insert_delete_id m k old) at 2 by done.
    rewrite (sumSizes_insert_fresh _ k old) by apply lookup_delete_eq. lia.
  - rewrite sumSizes_insert_fresh by done. lia.
Qed.

Lemma box_metrics_effective (d : Dim) (b : ItemBox) :
  dim_get d (box_metrics b) = effectiveSize d b.
Proof. by destruct d. Qed.

Lemma set_item_size_windowed (st : Layout1d) (idx s k : Z) :
  is_Some (_getPhysicalItem st k) ->
  is_Some (_getPhysicalItem (set_item_size idx s st) k).
Proof.
  unfold set_item_size, _getPhysicalItem.
  destruct (_newPhysicalItems st !! idx) eqn:Hidx; cbn.
  - destruct (decide (idx = k)) as [->|Hne].
    + rewrite lookup_alter_eq, Hidx. by eauto.
    + by rewrite lookup_alter_ne.
  - destruct (_newPhysicalItems st !! k) eqn:Hk; [by eauto|].
    destruct (decide (idx = k)) as [->|Hne].
    + rewrite lookup_alter_eq. intros [x ->]. by eauto.
    + by rewrite lookup_alter_ne.
Qed.

Lemma measureItem_windowed (st : Layout1d) (entry : Z * ItemBox) (k : Z) :
  is_Some (_getPhysicalItem st k) ->
  is_Some (_getPhysicalItem (measureItem st entry) k).
Proof.
  intros Hk. unfold measureItem.
  repeat case_match; try done; by apply set_item_size_windowed.
Qed.

Lemma measureItem_accounted (st : Layout1d) (entry : Z * ItemBox) (m : gmap Z Z) :
  accounted st m ->
  is_Some (_getPhysicalItem st (fst entry)) ->
  accounted (measureItem st entry)
    (<[fst entry := effectiveSize (_sizeDim st) (snd entry)]> m).
Proof.
  intros (Hm & Hn & Ht) Hwin.
  destruct (measureItem_frame st entry) as (_ & _ & Hdim).
  unfold accounted. rewrite Hdim. clear Hdim.
  assert (m !! fst entry = dim_get (_sizeDim st) <$> (_metrics st !! fst entry)) as Hprev.
  { by rewrite <- Hm, lookup_fmap. }
  pose proof (sumSizes_insert m (fst entry) (effectiveSize (_sizeDim st) (snd entry))) as Hsum.
  unfold measureItem.
  replace (_getPhysicalItem (set_metrics _ st) (fst entry))
    with (_getPhysicalItem st (fst entry)) by done.
  destruct Hwin as [item ->].
  rewrite <- Hprev. cbn [_sizeDim set_metrics].
  rewrite box_metrics_effective.
  assert (forall st1, _metrics st1 = <[fst entry := box_metrics (snd entry)]> (_metrics st) ->
            dim_get (_sizeDim st) <$> _metrics st1 =
            <[fst entry := effectiveSize (_sizeDim st) (snd entry)]> m) as Hmet.
  { intros st1 ->. by rewrite fmap_insert, box_metrics_effective, Hm. }
  destruct (m !! fst entry) as [prev|] eqn:Hlook; cbn in Hsum |- *.
  - split; [|split].
    + apply Hmet. unfold set_item_size. by case_match.
    + rewrite map_size_insert_Some by eauto.
      unfold set_item_size. by case_match.
    + rewrite Hsum. unfold set_item_size. case_match; cbn; lia.
  - split; [|split].
    + apply Hmet. unfold set_item_size. by case_match.
    + rewrite map_size_insert_None by done.
      unfold set_item_size. case_match; cbn; lia.
    + rewrite Hsum. unfold set_item_size. case_match; cbn; lia.
Qed.

Lemma measureItems_accounted (sizes : list (Z * ItemBox)) (st : Layout1d) (m : gmap Z Z) :
  accounted st m ->
  (forall entry, entry ∈ sizes -> is_Some (_getPhysicalItem st (fst entry))) ->
  accounted (fold_left measureItem sizes st) (recordSizes (_sizeDim st) m sizes).
Proof.
  revert st m. induction sizes as [|entry sizes IH]; intros st m Hacc Hwin; [done|].
  destruct (measureItem_frame st entry) as (_ & _ & Hdim).
  pose proof (IH (measureItem st entry)
                (<[fst entry := effectiveSize (_sizeDim st) (snd entry)]> m)) as Hrest.
  rewrite Hdim in Hrest. apply Hrest.
  - apply measureItem_accounted; [done|]. apply Hwin. by left.
  - intros e He. apply measureItem_windowed, Hwin. by right.
Qed.

Lemma updateItemSizes_accounted (sizes : list (Z * ItemBox)) (st : Layout1d) (m : gmap Z Z) :
  accounted st m ->
  (forall entry, entry ∈ sizes -> is_Some (_getPhysicalItem st (fst entry))) ->
  let m' := recordSizes (_sizeDim st) m sizes in
  accounted (updateItemSizes sizes st) m' /\
  _sizeDim (updateItemSizes sizes st) = _sizeDim st /\
  (m' <> ∅ -> _itemDim1 (updateItemSizes sizes st) = averageSize m').
Proof.
  intros Hacc Hwin m'.
  pose proof (measureItems_accounted sizes st m Hacc Hwin) as (Hm & Hn & Ht).
  destruct (measureItems_frame sizes st) as (_ & _ & Hdim).
  fold m' in Hm, Hn, Ht. rewrite Hdim in Hm.
  unfold updateItemSizes.
  destruct (Z.eqb_spec (_nMeasured (fold_left measureItem sizes st)) 0) as [Hzero|Hpos].
  - split; [by rewrite <- Hdim in Hm|]. split; [done|].
    intros Hne. apply map_size_non_empty_iff in Hne. lia.
  - split; [by rewrite <- Hdim in Hm|]. split; [done|].
    intros _. unfold _itemDim1, averageSize. cbn.
    rewrite Hn, Ht. by destruct (_sizeDim (fold_left measureItem sizes st)).
Qed.

(** C6, as the code has it.  Start from a layout on which nothing has been
    measured and run [updateItemSizes] any number of times, each call
    measuring only items that are, at the time of the call, in the
    in-progress or the committed window, and every size and margin
    measured being an integer.  After the last call the average item size
    along the scroll axis is [round (sum / count)] over the latest
    effective size of every item measured: neither the order of the
    measurements nor repeated measurements of an item matter.  (For sizes
    with a fractional part the order does matter:
    [average_order_counterexample].) *)
Theorem average_of_latest_sizes
    (st0 st : Layout1d) (calls : list (list (Z * ItemBox))) :
  measuredRun st0 calls st ->
  _metrics st0 = ∅ -> _nMeasured st0 = 0 -> _tMeasured st0 = 0 ->
  latestSizes (_sizeDim st0) calls <> ∅ ->
  _itemDim1 st = averageSize (latestSizes (_sizeDim st0) calls).
Proof.
  intros Hrun Hmetrics Hn Ht.
  assert (accounted st (latestSizes (_sizeDim st0) calls) /\
          _sizeDim st = _sizeDim st0 /\
          (latestSizes (_sizeDim st0) calls <> ∅ ->
           _itemDim1 st = averageSize (latestSizes (_sizeDim st0) calls)))
    as (_ & _ & Havg); [|done].
  induction Hrun as [|calls st st' sizes Hrun IH Hsame Hwin].
  - split; [|split; [done|done]].
    unfold accounted, latestSizes. cbn.
    by rewrite Hmetrics, Hn, Ht, fmap_empty.
  - destruct IH as (Hacc & Hdim & _).
    destruct Hsame as (Hsm & Hsn & Hst & Hsd).
    assert (accounted st' (latestSizes (_sizeDim st0) calls)) as Hacc'.
    { destruct Hacc as (Hm1 & Hn1 & Ht1). unfold accounted.
      by rewrite Hsm, Hsn, Hst, Hsd. }
    pose proof (updateItemSizes_accounted sizes st' _ Hacc' Hwin) as Hstep.
    cbn zeta in Hstep. rewrite Hsd, Hdim in Hstep.
    unfold latestSizes. rewrite fold_left_app. cbn [fold_left].
    exact Hstep.
Qed.

Lemma twoWindowed_run :
  measuredRun twoWindowed [firstCall; secondCall]
    (updateItemSizes secondCall (updateItemSizes firstCall twoWindowed)).
Proof.
  apply (run_call twoWindowed [firstCall] (updateItemSizes firstCall twoWindowed)).
  - apply (run_call twoWindowed [] twoWindowed twoWindowed firstCall).
    + apply run_start.
    + by repeat split.
    + intros entry Hin. unfold firstCall in Hin.
      apply elem_of_cons in Hin as [->|Hin]; [by vm_compute; eauto|].
      apply list_elem_of_singleton in Hin as ->. by vm_compute; eauto.
  - by repeat split.
  - intros entry Hin. apply list_elem_of_singleton in Hin as ->.
    by vm_compute; eauto.
Defined.

(** The theorem on the two calls: the sizes that count are 80 and 60. *)
Lemma average_of_latest_sizes_witness :
  _itemDim1 (updateItemSizes secondCall (updateItemSizes firstCall twoWindowed)) =
  averageSize (latestSizes Height [firstCall; secondCall]).
Proof.
  apply (average_of_latest_sizes twoWindowed _ [firstCall; secondCall] twoWindowed_run);
    try reflexivity.
  intros Hempty.
  assert (latestSizes (_sizeDim twoWindowed) [firstCall; secondCall] !! 0 = None) as Hnone.
  { by rewrite Hempty. }
  vm_compute in Hnone. discriminate Hnone.
Defined.

(** C6 as stated fails: an item measured while it is in neither window is
    stored but not counted, and the average keeps its former value. *)
Lemma average_unwindowed_counterexample :
  _itemDim1 (updateItemSizes [(0, box 300 100)] (fresh 1000 50 0 500 0 0)) = 50 /\
  averageSize (latestSizes Height [[(0, box 300 100)]]) = 100.
Proof. by vm_compute. Qed.

Example average_of_two_calls :
  averageSize (latestSizes Height [firstCall; secondCall]) = 70.
Proof. by vm_compute. Qed.

(** C6 as stated fails for sizes with a fractional part, whatever the
    windows: the total is a sum of doubles.  Three items in a window are
    measured for the first time at the heights 11.9, 32.4 and 14.2.  In
    this order the total is 58.5 and the average, [Math.round (19.5)], is
    20; in the reverse order the total is 58.49999999999999 and the
    average is 19. *)
Lemma average_order_counterexample :
  Doubles.averageAfter
    [Doubles.height_11_9; Doubles.height_32_4; Doubles.height_14_2] = Some 20 /\
  Doubles.averageAfter
    [Doubles.height_14_2; Doubles.height_32_4; Doubles.height_11_9] = Some 19.
Proof. by vm_compute. Qed.

(** ** Window passes *)

Lemma sameOutside_refl st : sameOutside st st.
Proof. by constructor. Qed.

Lemma sameOutside_trans st0 st1 st2 :
  sameOutside st0 st1 -> sameOutside st1 st2 -> sameOutside st0 st2.
Proof. intros [] []. constructor; congruence. Qed.

Lemma backwardStep_outside st : sameOutside st (backwardStep st).
Proof. unfold backwardStep. case_match; by constructor. Qed.

Lemma forwardStep_outside st : sameOutside st (forwardStep st).
Proof. unfold forwardStep. case_match; by constructor. Qed.

Lemma forwardAdvance_outside size st : sameOutside st (forwardAdvance size st).
Proof. by constructor. Qed.

Lemma getSize_agree (st st' : Layout1d) (idx : Z) :
  _physicalItems st' = _physicalItems st ->
  _newPhysicalItems st' !! idx = _newPhysicalItems st !! idx ->
  _getSize st' idx = _getSize st idx.
Proof. intros HP HN. unfold _getSize, _getPhysicalItem. by rewrite HP, HN. Qed.

Lemma getSize_is_Some st idx : is_Some (_getSize st idx) <-> is_Some (_getPhysicalItem st idx).
Proof. unfold _getSize. apply fmap_is_Some. Qed.

(** The fields after one iteration of each loop. *)
Lemma backwardStep_fields (st : Layout1d) :
  let idx := _first st - 1 in
  let known := _getSize st idx in
  let size := default (_itemDim1 st) known in
  let pos := _physicalMin st - (size + _spacing st) in
  _first (backwardStep st) = idx /\
  _last (backwardStep st) = _last st /\
  _physicalMin (backwardStep st) = pos /\
  _physicalMax (backwardStep st) = _physicalMax st /\
  _newPhysicalItems (backwardStep st) =
    <[idx := {| pos := pos; size := size |}]> (_newPhysicalItems st) /\
  _stable (backwardStep st) = _stable st && bool_decide (is_Some known).
Proof.
  cbn zeta. unfold backwardStep.
  replace (_getSize (set_first (_first st - 1) st) (_first (set_first (_first st - 1) st)))
    with (_getSize st (_first st - 1)) by done.
  destruct (_getSize st (_first st - 1)) as [s|] eqn:Hs; cbn.
  - repeat split; try done. by rewrite andb_true_r.
  - repeat split; try done. by rewrite andb_false_r.
Qed.

Lemma forwardStep_fields (st : Layout1d) :
  let idx := _last st in
  let known := _getSize st idx in
  let size := default (_itemDim1 st) known in
  _first (forwardStep st) = _first st /\
  _last (forwardStep st) = idx + 1 /\
  _physicalMin (forwardStep st) = _physicalMin st /\
  _physicalMax (forwardStep st) = _physicalMax st /\
  _newPhysicalItems (forwardStep st) =
    <[idx := {| pos := _physicalMax st; size := size |}]> (_newPhysicalItems st) /\
  _stable (forwardStep st) = _stable st && bool_decide (is_Some known).
Proof.
  cbn zeta. unfold forwardStep.
  destruct (_getSize st (_last st)) as [s|] eqn:Hs; cbn.
  - repeat split; try done. by rewrite andb_true_r.
  - repeat split; try done. by rewrite andb_false_r.
Qed.

Lemma known_iff (orig st : Layout1d) (i : Z) :
  _physicalItems st = _physicalItems orig ->
  _newPhysicalItems st !! i = _newPhysicalItems orig !! i ->
  bool_decide (is_Some (_getSize st i)) = true <-> is_Some (_getPhysicalItem orig i).
Proof.
  intros HP HN. rewrite bool_decide_eq_true, getSize_is_Some.
  unfold _getPhysicalItem. by rewrite HP, HN.
Qed.

Lemma backwardStep_inv (orig : Layout1d) (a p z lower : Z) (st : Layout1d) :
  windowInv orig a p z st -> atEnd orig a p st ->
  backwardGuard lower st = true ->
  windowInv orig a p z (backwardStep st) /\ atEnd orig a p (backwardStep st).
Proof.
  intros [Hout Hfa Hal Hf0 HlT Hcont (b & Hb & Hbpos) Hanc Hbare Hbelow Habove Hstable] Hend Hguard.
  apply andb_true_iff in Hguard as [_ Hpos%Z.ltb_lt].
  destruct (backwardStep_fields st) as (Hf & Hl & Hmin & Hmax & HN & Hst).
  pose proof (backwardStep_outside st) as Hout'.
  assert (_spacing st = _spacing orig) as Hsp by apply Hout.
  split.
  - constructor; rewrite ?Hf, ?Hl, ?Hmin, ?Hmax, ?HN.
    + by eapply sameOutside_trans.
    + lia.
    + done.
    + lia.
    + done.
    + intros i Hi. destruct (decide (i = _first st - 1)) as [->|Hne].
      * eexists _, b. rewrite lookup_insert_eq, lookup_insert_ne by lia.
        replace (_first st - 1 + 1) with (_first st) by lia.
        split; [done|]. split; [done|]. cbn. lia.
      * destruct (Hcont i) as (b1 & b2 & H1 & H2 & H12); [lia|].
        exists b1, b2. by rewrite !lookup_insert_ne by lia.
    + eexists. rewrite lookup_insert_eq. by split.
    + rewrite lookup_insert_ne by lia. done.
    + lia.
    + intros i Hi Hia. rewrite lookup_insert_ne by lia. apply Hbelow; lia.
    + intros i Hi Hia. rewrite lookup_insert_ne by lia. by apply Habove.
    + rewrite Hst, andb_true_iff, Hstable.
      rewrite (known_iff orig st); [|apply Hout|apply Hbelow; lia].
      split.
      * intros [Hall Hnew] i Hi Hia.
        destruct (decide (i = _first st - 1)) as [->|Hne]; [done|]. apply Hall; [lia|done].
      * intros Hall. split.
        -- intros i Hi Hia. apply Hall; [lia|done].
        -- apply Hall; lia.
  - unfold atEnd. rewrite Hl, Hmax, HN.
    destruct Hend as [Hend|(Hlt & b' & Hb' & Hmax')]; [by left|right].
    split; [done|]. exists b'. by rewrite lookup_insert_ne by lia.
Qed.

Lemma forwardStep_inv (orig : Layout1d) (a p z upper : Z) (st : Layout1d) :
  windowInv orig a p z st -> atEnd orig a p st ->
  forwardGuard upper st = true ->
  windowInv orig a p z (forwardStep st) /\
  atEnd orig a p
    (forwardAdvance (default (_itemDim1 st) (_getSize st (_last st))) (forwardStep st)).
Proof.
  intros [Hout Hfa Hal Hf0 HlT Hcont (b & Hb & Hbpos) Hanc Hbare Hbelow Habove Hstable] Hend Hguard.
  apply andb_true_iff in Hguard as [_ HltT%Z.ltb_lt].
  destruct (forwardStep_fields st) as (Hf & Hl & Hmin & Hmax & HN & Hst).
  pose proof (forwardStep_outside st) as Hout'.
  assert (_spacing st = _spacing orig) as Hsp by apply Hout.
  assert (_totalItems st = _totalItems orig) as HT by apply Hout.
  set (size := default (_itemDim1 st) (_getSize st (_last st))) in *.
  (* the first iteration writes the anchor's own entry again *)
  assert (_last st = a ->
          _getSize st (_last st) = Some z /\
          <[_last st := {| pos := _physicalMax st; size := size |}]> (_newPhysicalItems st)
          = _newPhysicalItems st) as Hfirst.
  { intros Hla. destruct Hend as [[_ Hp]|[Hlt _]]; [|lia].
    assert (_getSize st (_last st) = Some z) as Hz.
    { unfold _getSize, _getPhysicalItem. by rewrite Hla, Hanc. }
    split; [done|]. apply insert_id. subst size. by rewrite Hz, Hla, Hp. }
  split.
  - constructor; rewrite ?Hf, ?Hl, ?Hmin, ?Hmax, ?HN.
    + by eapply sameOutside_trans.
    + done.
    + lia.
    + done.
    + lia.
    + replace (_last st + 1 - 1) with (_last st) by lia.
      destruct (decide (_last st = a)) as [Hla|Hla].
      * destruct (Hfirst Hla) as [_ ->].
        intros i Hi. apply Hcont. lia.
      * intros i Hi. destruct (decide (i = _last st - 1)) as [->|Hne].
        -- destruct Hend as [[? _]|(Hlt & b' & Hb' & Hmax')]; [lia|].
           eexists b', _. rewrite lookup_insert_ne by lia.
           replace (_last st - 1 + 1) with (_last st) by lia.
           rewrite lookup_insert_eq. split; [done|]. split; [done|]. cbn. lia.
        -- destruct (Hcont i) as (b1 & b2 & H1 & H2 & H12); [lia|].
           exists b1, b2. by rewrite !lookup_insert_ne by lia.
    + destruct (decide (_last st = a)) as [Hla|Hla].
      * destruct (Hfirst Hla) as [_ ->]. by exists b.
      * exists b. by rewrite lookup_insert_ne by lia.
    + destruct (decide (_last st = a)) as [Hla|Hla].
      * by destruct (Hfirst Hla) as [_ ->].
      * by rewrite lookup_insert_ne by lia.
    + done.
    + intros i Hi Hia. rewrite lookup_insert_ne by lia. by apply Hbelow.
    + intros i Hi Hia. rewrite lookup_insert_ne by lia. apply Habove; lia.
    + rewrite Hst, andb_true_iff, Hstable.
      destruct (decide (_last st = a)) as [Hla|Hla].
      * destruct (Hfirst Hla) as [-> _]. rewrite bool_decide_true by eauto.
        split.
        -- intros [Hall _] i Hi Hia. apply Hall; [lia|done].
        -- intros Hall. split; [|done]. intros i Hi Hia. apply Hall; [lia|done].
      * rewrite (known_iff orig st); [|apply Hout|apply Habove; [lia|done]].
        split.
        -- intros [Hall Hnew] i Hi Hia.
           destruct (decide (i = _last st)) as [->|Hne]; [done|]. apply Hall; [lia|done].
        -- intros Hall. split.
           ++ intros i Hi Hia. apply Hall; [lia|done].
           ++ apply Hall; [lia|done].
  - unfold atEnd.
    change (_last (forwardAdvance size (forwardStep st))) with (_last (forwardStep st)).
    change (_newPhysicalItems (forwardAdvance size (forwardStep st)))
      with (_newPhysicalItems (forwardStep st)).
    change (_physicalMax (forwardAdvance size (forwardStep st)))
      with (_physicalMax (forwardStep st) + (size + _spacing (forwardStep st))).
    assert (_spacing (forwardStep st) = _spacing st) as -> by apply Hout'.
    rewrite Hl, Hmax, HN. right.
    split; [lia|]. replace (_last st + 1 - 1) with (_last st) by lia.
    eexists. rewrite lookup_insert_eq. split; [done|]. cbn. lia.
Qed.

Lemma growBackward_inv (orig : Layout1d) (a p z lower : Z) (n : nat) (st : Layout1d) :
  windowInv orig a p z st -> atEnd orig a p st ->
  windowInv orig a p z (growBackward n lower st) /\
  atEnd orig a p (growBackward n lower st).
Proof.
  revert st. induction n as [|n IH]; intros st Hinv Hend; [done|].
  cbn [growBackward]. destruct (backwardGuard lower st) eqn:Hguard; [|done].
  destruct (backwardStep_inv orig a p z lower st Hinv Hend Hguard) as [Hinv' Hend'].
  destruct (stopEstimating (backwardStep st)); [done|]. by apply IH.
Qed.

Lemma growForward_inv (orig : Layout1d) (a p z upper : Z) (n : nat) (st : Layout1d) :
  windowInv orig a p z st -> atEnd orig a p st ->
  windowInv orig a p z (growForward n upper st) /\
  (_last (growForward n upper st) = a -> _physicalMax (growForward n upper st) = p).
Proof.
  revert st. induction n as [|n IH]; intros st Hinv Hend.
  - split; [done|]. cbn. intros Hla. destruct Hend as [[_ ?]|[? _]]; [done|lia].
  - cbn [growForward]. destruct (forwardGuard upper st) eqn:Hguard.
    + destruct (forwardStep_inv orig a p z upper st Hinv Hend Hguard) as [Hinv' Hend'].
      destruct (stopEstimating (forwardStep st)).
      * split; [done|]. destruct (forwardStep_fields st) as (_ & Hl & _).
        pose proof (wi_last_ge _ _ _ _ _ Hinv). lia.
      * apply IH; [|done].
        destruct Hinv'. constructor; try done.
        eapply sameOutside_trans; [done|]. apply forwardAdvance_outside.
    + split; [done|]. intros Hla. destruct Hend as [[_ ?]|[? _]]; [done|lia].
Qed.

Lemma seedAnchor_inv (orig : Layout1d) (a p z : Z) :
  windowInv orig a p z (seedAnchor a p z orig) /\ atEnd orig a p (seedAnchor a p z orig).
Proof.
  split; [|by left].
  constructor; cbn.
  - by constructor.
  - lia.
  - lia.
  - done.
  - lia.
  - intros i Hi. lia.
  - eexists. by rewrite lookup_insert_eq.
  - by rewrite lookup_insert_eq.
  - done.
  - intros i _ Hia. by rewrite lookup_insert_ne.
  - intros i _ Hia. by rewrite lookup_insert_ne.
  - split; [|done]. intros _ i Hi. lia.
Qed.

Lemma grownItems_window (orig : Layout1d) (a p z lower upper : Z) :
  grownWindow orig a p z (grownItems a p z lower upper orig).
Proof.
  unfold grownItems. cbn zeta.
  destruct (seedAnchor_inv orig a p z) as [Hinv0 Hend0].
  set (n1 := Z.to_nat (_first (seedAnchor a p z orig))).
  destruct (growBackward_inv orig a p z lower n1 _ Hinv0 Hend0) as [Hinv1 Hend1].
  set (st1 := growBackward n1 lower (seedAnchor a p z orig)) in *.
  set (n2 := Z.to_nat (_totalItems st1 - _last st1)).
  destruct (growForward_inv orig a p z upper n2 _ Hinv1 Hend1) as [Hinv2 Hbare2].
  set (st2 := growForward n2 upper st1) in *.
  destruct Hinv2 as [Hout Hfa Hal Hf0 HlT Hcont (b & Hb & Hbpos) Hanc Hbare Hbelow Habove Hstable].
  assert (contiguous (_spacing orig) (_newPhysicalItems st2) (_first st2) (_last st2 - 1))
    as Hcont'.
  { intros i Hi. apply Hcont. lia. }
  constructor; cbn.
  - destruct Hout. by constructor.
  - done.
  - lia.
  - done.
  - lia.
  - done.
  - intros i Hi. destruct (decide (i = _first st2)) as [->|Hne]; [by eauto|].
    destruct (Hcont' (i - 1)) as (b1 & b2 & _ & H2 & _); [lia|].
    replace (i - 1 + 1) with i in H2 by lia. by eauto.
  - by exists b.
  - done.
  - intros i [Hi|Hi] Hia; [by apply Hbelow|apply Habove; [lia|done]].
  - rewrite Hstable. split; intros Hall i Hi Hia; apply Hall; (lia || done).
  - destruct (decide (_first st2 <= _last st2 - 1)) as [|Hlt]; [by left|right].
    assert (_last st2 = a) as Hla by lia.
    assert (_first st2 = a) as Hfa' by lia.
    repeat split; [done|lia|by apply Hbare|by apply Hbare2].
Qed.

Lemma shift_zero (items : gmap Z ItemBounds) : shift 0 <$> items = items.
Proof.
  apply map_eq. intros i. rewrite lookup_fmap.
  destruct (items !! i) as [[p s]|]; [|done]. cbn. unfold shift. cbn. by rewrite Z.sub_0_r.
Qed.

Lemma truthy_false (x : Z) : truthy x = false -> x = 0.
Proof. unfold truthy. by intros ?%negb_false_iff%Z.eqb_eq. Qed.

Lemma correctExtent_fields (st : Layout1d) :
  let e := _calculateError st in
  _first (correctExtent st) = _first st /\
  _last (correctExtent st) = _last st /\
  _stable (correctExtent st) = _stable st /\
  _physicalMin (correctExtent st) = _physicalMin st - e /\
  _physicalMax (correctExtent st) = _physicalMax st - e /\
  _newPhysicalItems (correctExtent st) = shift e <$> _newPhysicalItems st /\
  _physicalItems (correctExtent st) = _physicalItems st /\
  _anchorIdx (correctExtent st) = _anchorIdx st /\
  _totalItems (correctExtent st) = _totalItems st /\
  _spacing (correctExtent st) = _spacing st /\
  _scrollSize (correctExtent st) = _scrollSize st.
Proof.
  cbn zeta. unfold correctExtent.
  destruct (truthy (_calculateError st)) eqn:He; [done|].
  apply truthy_false in He. rewrite He, shift_zero, !Z.sub_0_r. done.
Qed.

Lemma getAnchor_frame (st st1 : Layout1d) (lower upper a : Z) :
  _getAnchor st lower upper = Ret (a, st1) ->
  st1 = st \/ exists message, st1 = log (ConsoleError message) st.
Proof.
  unfold _getAnchor. intros H.
  repeat case_match; try discriminate; try (injection H as <- <-; by eauto).
  destruct (anchorSearch _ _ _ _ _ _); try discriminate. cbn in H.
  injection H as <- <-. by left.
Qed.

Lemma anchoredGrowth_window (st : Layout1d) (a p lower upper : Z) :
  _anchorIdx st = Some a -> _anchorPos st = Some p ->
  exists st0 z, passStart st st0 a p /\
    grownWindow st0 a p z (anchoredGrowth a p lower upper st).
Proof.
  intros Ha Hp. unfold anchoredGrowth.
  set (z := default (_itemDim1 st) (_getSize st a)).
  destruct (truthy (anchorError p z lower upper st)).
  - eexists _, z. split; [|apply grownItems_window]. by constructor.
  - eexists _, z. split; [|apply grownItems_window]. by constructor.
Qed.

Lemma grownPass_window (st grown : Layout1d) (lower upper : Z) :
  grownPass lower upper st = Ret grown ->
  exists st0 a p z,
    passStart st st0 a p /\ grownWindow st0 a p z grown /\
    (_anchorIdx st = Some a \/ exists st1, _getAnchor st lower upper = Ret (a, st1)).
Proof.
  unfold grownPass. intros H.
  assert (forall a st1, _getAnchor st lower upper = Ret (a, st1) ->
            let st2 := set_anchorPos (Some (_getPosition (set_anchorIdx (Some a) st1) a))
                         (set_anchorIdx (Some a) st1) in
            exists st0 z, passStart st st0 a (_getPosition (set_anchorIdx (Some a) st1) a) /\
              grownWindow st0 a (_getPosition (set_anchorIdx (Some a) st1) a) z
                (anchoredGrowth a (_getPosition (set_anchorIdx (Some a) st1) a) lower upper st2))
    as Hfresh.
  { intros a st1 Hanchor. cbn zeta.
    edestruct anchoredGrowth_window as (st0 & z & Hstart & Hwin); [ | |exists st0, z; split; [|exact Hwin]].
    - done.
    - done.
    - destruct Hstart. apply getAnchor_frame in Hanchor as [->|[message ->]]; by constructor. }
  destruct (_anchorIdx st) as [a|] eqn:Ha.
  - destruct (_anchorPos st) as [p|] eqn:Hp.
    + injection H as <-.
      destruct (anchoredGrowth_window st a p lower upper Ha Hp) as (st0 & z & ? & ?).
      exists st0, a, p, z. by auto.
    + destruct (_getAnchor st lower upper) as [[a' st1]| | |] eqn:Hanchor; try discriminate.
      cbn in H. injection H as <-.
      destruct (Hfresh a' st1 eq_refl) as (st0 & z & ? & ?). eexists st0, a', _, z. by eauto.
  - destruct (_getAnchor st lower upper) as [[a' st1]| | |] eqn:Hanchor; try discriminate.
    cbn in H. injection H as <-.
    destruct (Hfresh a' st1 eq_refl) as (st0 & z & ? & ?). eexists st0, a', _, z. by eauto.
Qed.

Lemma getPhysicalItem_start (st st0 : Layout1d) (a p i : Z) :
  passStart st st0 a p -> _getPhysicalItem st0 i = _getPhysicalItem st i.
Proof.
  intros H. unfold _getPhysicalItem.
  by rewrite (ps_newPhysicalItems _ _ _ _ H), (ps_physicalItems _ _ _ _ H).
Qed.


Lemma windowPass_inv (lower upper : Z) (st built : Layout1d) :
  windowPass lower upper st = Ret built ->
  exists grown, grownPass lower upper st = Ret grown /\ built = correctExtent grown.
Proof.
  unfold windowPass. destruct (grownPass lower upper st) as [grown| | |]; try discriminate.
  cbn. intros [= <-]. by exists grown.
Qed.

Lemma getItems_inv (lower upper : Z) (st st' : Layout1d) :
  _getItems lower upper st = Ret st' ->
  exists built, windowPass lower upper st = Ret built /\ st' = commitIfStable built.
Proof.
  unfold _getItems. destruct (windowPass lower upper st) as [built| | |]; try discriminate.
  cbn. intros [= <-]. by exists built.
Qed.

Lemma commitIfStable_fields (st : Layout1d) :
  _first (commitIfStable st) = _first st /\
  _last (commitIfStable st) = _last st /\
  _stable (commitIfStable st) = _stable st /\
  _physicalMin (commitIfStable st) = _physicalMin st /\
  _physicalMax (commitIfStable st) = _physicalMax st /\
  _anchorIdx (commitIfStable st) = _anchorIdx st /\
  _totalItems (commitIfStable st) = _totalItems st /\
  _spacing (commitIfStable st) = _spacing st /\
  _scrollSize (commitIfStable st) = _scrollSize st /\
  (forall i b, _newPhysicalItems st !! i = Some b ->
     _getPhysicalItem (commitIfStable st) i = Some b).
Proof.
  unfold commitIfStable.
  destruct (_stable st) eqn:Hs; cbn; (split_and !; [done..|]);
    intros i b Hb; unfold _getPhysicalItem; cbn.
  - by rewrite lookup_empty.
  - by rewrite Hb.
Qed.

(** C2, as the code has it.  A window pass replaces the committed window
    by the window it built if and only if it ends with the stable flag
    set, and the flag is set exactly when every index of the range other
    than the anchor already had an entry, in the in-progress or in the
    committed window, when the pass started; the anchor itself may be
    seeded with the estimate.  After an unstable pass the committed map is
    the one the pass started with, and the window built stays in progress. *)
Theorem getItems_commits_iff_stable (lower upper : Z) (st built : Layout1d) :
  windowPass lower upper st = Ret built ->
  exists st',
    _getItems lower upper st = Ret st' /\
    _stable st' = _stable built /\
    (if _stable built
     then _physicalItems st' = _newPhysicalItems built /\ _newPhysicalItems st' = ∅
     else _physicalItems st' = _physicalItems st /\
          _newPhysicalItems st' = _newPhysicalItems built) /\
    exists a, _anchorIdx built = Some a /\
      (_stable built = true <->
       forall i, _first built <= i <= _last built -> i <> a ->
                 is_Some (_getPhysicalItem st i)).
Proof.
  intros Hpass. exists (commitIfStable built).
  destruct (windowPass_inv _ _ _ _ Hpass) as (grown & Hgrown & ->).
  destruct (grownPass_window _ _ _ _ Hgrown) as (st0 & a & p & z & Hstart & Hwin & _).
  destruct (correctExtent_fields grown) as (Hf & Hl & Hs & _ & _ & _ & HP & Ha & _).
  split; [by unfold _getItems; rewrite Hpass|].
  split; [apply commitIfStable_fields|].
  split.
  - unfold commitIfStable. destruct (_stable (correctExtent grown)); cbn; [done|].
    split; [|done]. rewrite HP, (same_physicalItems _ _ (gw_outside _ _ _ _ _ Hwin)).
    apply Hstart.
  - exists a. split.
    + rewrite Ha, (same_anchorIdx _ _ (gw_outside _ _ _ _ _ Hwin)). apply Hstart.
    + rewrite Hf, Hl, Hs, (gw_stable _ _ _ _ _ Hwin).
      split; intros Hall i Hi Hia.
      * rewrite <- (getPhysicalItem_start st st0 a p) by done. by apply Hall.
      * rewrite (getPhysicalItem_start st st0 a p) by done. by apply Hall.
Qed.


(** C3, as the code has it.  After the extent-error correction of a growth
    pass, if the window includes index 0 then the bounds of item 0 are at
    position exactly 0; if the window includes the last index, does not
    include index 0 and started above 0 before the correction, then
    [_physicalMax] equals the scroll size. *)
Theorem boundary_pinning (lower upper : Z) (st grown : Layout1d) :
  grownPass lower upper st = Ret grown ->
  exists st',
    _getItems lower upper st = Ret st' /\
    (_first st' = 0 ->
     exists b, _getPhysicalItem st' 0 = Some b /\ pos b = 0) /\
    (_last st' = _totalItems st' - 1 -> _first st' <> 0 -> 0 < _physicalMin grown ->
     _physicalMax st' = _scrollSize st').
Proof.
  intros Hgrown. exists (commitIfStable (correctExtent grown)).
  destruct (grownPass_window _ _ _ _ Hgrown) as (st0 & a & p & z & Hstart & Hwin & _).
  destruct (correctExtent_fields grown)
    as (Hf & Hl & Hs & Hmin & Hmax & HN & _ & _ & HT & _ & HS).
  destruct (commitIfStable_fields (correctExtent grown))
    as (Hf' & Hl' & _ & _ & Hmax' & _ & HT' & _ & HS' & Hitem).
  split; [by unfold _getItems, windowPass; rewrite Hgrown|].
  rewrite Hf', Hl', Hmax', HT', HS', Hf, Hl, Hmax, HT, HS.
  split.
  - intros Hzero. destruct (gw_head _ _ _ _ _ Hwin) as (b & Hb & Hbpos).
    exists (shift (_calculateError grown) b). split.
    + apply Hitem. by rewrite HN, lookup_fmap, <- Hzero, Hb.
    + cbn. unfold _calculateError. rewrite Hzero. cbn. lia.
  - intros Hlast Hfirst Hpos. unfold _calculateError.
    destruct (Z.eqb_spec (_first grown) 0); [done|].
    destruct (Z.leb_spec (_physicalMin grown) 0); [lia|].
    rewrite Hlast, Z.eqb_refl. lia.
Qed.

Lemma calculateAnchor_range (st : Layout1d) (lower upper : Z) :
  0 < _totalItems st -> 0 <= _calculateAnchor st lower upper < _totalItems st.
Proof. intros HT. unfold _calculateAnchor. repeat case_match; lia. Qed.

Lemma anchorSearch_found (n : nat) (items : gmap Z ItemBounds)
    (lower upper minIdx maxIdx c : Z) :
  anchorSearch n items lower upper minIdx maxIdx = Ret c -> is_Some (items !! c).
Proof.
  revert minIdx maxIdx. induction n as [|n IH]; intros minIdx maxIdx; [done|].
  cbn [anchorSearch].
  destruct (items !! ((maxIdx + minIdx + 1) / 2)) as [cand|] eqn:Hc; [|done].
  repeat case_match; try done.
  - intros [= <-]. by eauto.
  - apply IH.
  - apply IH.
Qed.

Lemma getAnchor_range (st st1 : Layout1d) (lower upper a : Z) :
  0 < _totalItems st ->
  (forall k, is_Some (_getPhysicalItem st k) -> 0 <= k < _totalItems st) ->
  _getAnchor st lower upper = Ret (a, st1) ->
  0 <= a < _totalItems st.
Proof.
  intros HT Hkeys. unfold _getAnchor.
  pose proof (calculateAnchor_range st lower upper HT) as Hcalc.
  assert (forall e, _calculateAnchor (log e st) lower upper
                    = _calculateAnchor st lower upper) as Hlog by done.
  destruct (decide (_physicalItems st = ∅)); [by intros [= <- _]|].
  destruct (_first st <? 0); [rewrite Hlog; by intros [= <- _]|].
  destruct (_last st <? 0); [rewrite Hlog; by intros [= <- _]|].
  destruct (_getPhysicalItem st (_first st)) as [firstItem|] eqn:Hfirst; [|done].
  destruct (_getPhysicalItem st (_last st)) as [lastItem|] eqn:Hlast; [|done].
  destruct (_ <? lower); [by intros [= <- _]|].
  destruct (upper <? _); [by intros [= <- _]|].
  destruct (_ || _); [intros [= <- _]; apply Hkeys; by rewrite Hfirst|].
  destruct (_ || _); [intros [= <- _]; apply Hkeys; by rewrite Hlast|].
  destruct (anchorSearch _ _ _ _ _ _) as [c| | |] eqn:Hsearch; try done.
  cbn. intros [= <- _]. apply Hkeys.
  apply anchorSearch_found in Hsearch as [item Hitem].
  unfold _getPhysicalItem. rewrite Hitem. by destruct (_newPhysicalItems st !! c); eauto.
Qed.

(** The bounds that do hold of every range.  With at least one item, a
    viewport of positive extent and in-range indices held by the layout
    (the anchor it keeps, the keys of its two windows), a pass that returns
    leaves [0 <= first <= totalItems - 1] and [-1 <= last <= totalItems - 1],
    and either [first <= last], or no growth loop ran: the range is the
    empty one just before the anchor, [last = first - 1], and the physical
    extent is a point. *)
Theorem getActiveItems_range (st st' : Layout1d) :
  0 < _totalItems st -> 0 < _viewDim1 st ->
  (forall a, _anchorIdx st = Some a -> 0 <= a < _totalItems st) ->
  (forall k, is_Some (_getPhysicalItem st k) -> 0 <= k < _totalItems st) ->
  _getActiveItems st = Ret st' ->
  0 <= _first st' <= _totalItems st - 1 /\
  -1 <= _last st' <= _totalItems st - 1 /\
  (_first st' <= _last st' \/
   (_last st' = _first st' - 1 /\ _anchorIdx st' = Some (_first st') /\
    _physicalMin st' = _physicalMax st')).
Proof.
  intros HT Hview Hanchor Hkeys. unfold _getActiveItems.
  assert ((_viewDim1 st =? 0) || (_totalItems st =? 0) = false) as ->.
  { apply orb_false_iff. split; apply Z.eqb_neq; lia. }
  intros Hget.
  destruct (getItems_inv _ _ _ _ Hget) as (built & Hpass & ->).
  destruct (windowPass_inv _ _ _ _ Hpass) as (grown & Hgrown & ->).
  destruct (grownPass_window _ _ _ _ Hgrown) as (st0 & a & p & z & Hstart & Hwin & Ha).
  destruct (correctExtent_fields grown)
    as (Hf & Hl & _ & Hmin & Hmax & _ & _ & Hidx & _).
  destruct (commitIfStable_fields (correctExtent grown))
    as (Hf' & Hl' & _ & Hmin' & Hmax' & Hidx' & _).
  rewrite Hf', Hl', Hmin', Hmax', Hidx', Hf, Hl, Hmin, Hmax, Hidx.
  assert (0 <= a < _totalItems st) as Harange.
  { destruct Ha as [Ha|[st1 Ha]]; [by apply Hanchor|by eapply getAnchor_range]. }
  destruct Hwin as [Hout Hfa Hla Hf0 HlT _ _ _ _ _ _ Hrange].
  rewrite (ps_totalItems _ _ _ _ Hstart) in HlT.
  rewrite (same_anchorIdx _ _ Hout), (ps_anchorIdx _ _ _ _ Hstart).
  split; [lia|]. split; [lia|].
  destruct Hrange as [?|(-> & -> & -> & ->)]; [by left|right]. done.
Qed.

(** ** The loops end *)



Lemma anchorSearch_measure (n : nat) (items : gmap Z ItemBounds)
    (lower upper minIdx maxIdx : Z) :
  searchMeasure minIdx maxIdx <= Z.of_nat n ->
  anchorSearch n items lower upper minIdx maxIdx <> OutOfFuel.
Proof.
  revert minIdx maxIdx. induction n as [|n IH]; intros minIdx maxIdx Hfuel.
  - exfalso. unfold searchMeasure in Hfuel. repeat case_match; lia.
  - cbn [anchorSearch].
    destruct (items !! ((maxIdx + minIdx + 1) / 2)) as [candidate|]; [|done].
    destruct (_ || _); [done|].
    destruct (_ <? lower).
    + destruct (Z.eqb_spec ((maxIdx + minIdx + 1) / 2 + 1) minIdx) as [|Hne]; [done|].
      apply IH. unfold searchMeasure in *.
      destruct (Z.leb_spec 0 (maxIdx - minIdx)), (Z.eqb_spec (maxIdx - minIdx) (-1)),
        (Z.leb_spec 0 (maxIdx - ((maxIdx + minIdx + 1) / 2 + 1))),
        (Z.eqb_spec (maxIdx - ((maxIdx + minIdx + 1) / 2 + 1)) (-1)); lia.
    + destruct (upper <? _); [|done].
      destruct (Z.eqb_spec ((maxIdx + minIdx + 1) / 2 - 1) maxIdx) as [|Hne]; [done|].
      apply IH. unfold searchMeasure in *.
      destruct (Z.leb_spec 0 (maxIdx - minIdx)), (Z.eqb_spec (maxIdx - minIdx) (-1)),
        (Z.leb_spec 0 ((maxIdx + minIdx + 1) / 2 - 1 - minIdx)),
        (Z.eqb_spec ((maxIdx + minIdx + 1) / 2 - 1 - minIdx) (-1)); lia.
Qed.

Lemma anchorSearch_fuel (items : gmap Z ItemBounds) (lower upper minIdx maxIdx : Z) :
  anchorSearch (searchFuel minIdx maxIdx) items lower upper minIdx maxIdx <> OutOfFuel.
Proof.
  apply anchorSearch_measure. unfold searchFuel, searchMeasure.
  repeat case_match; lia.
Qed.

Lemma getAnchor_fuel (st : Layout1d) (lower upper : Z) :
  _getAnchor st lower upper <> OutOfFuel.
Proof.
  unfold _getAnchor. repeat case_match; try done.
  pose proof (anchorSearch_fuel (_physicalItems st) lower upper (_first st) (_last st)).
  by destruct (anchorSearch _ _ _ _ _ _).
Qed.

(** A pass returns whenever it holds its anchor or nothing is committed. *)
Lemma getItems_returns (st : Layout1d) (lower upper : Z) :
  (is_Some (_anchorIdx st) /\ is_Some (_anchorPos st)) \/ _physicalItems st = ∅ ->
  exists st', _getItems lower upper st = Ret st'.
Proof.
  intros Hcase. unfold _getItems, windowPass, grownPass.
  destruct (_anchorIdx st) as [a|] eqn:Ha, (_anchorPos st) as [p|] eqn:Hp;
    try (by eexists).
  all: destruct Hcase as [[[? ?] [? ?]]|Hempty]; try done.
  all: unfold _getAnchor; rewrite decide_True by done; by eexists.
Qed.

Lemma getItems_fuel (st : Layout1d) (lower upper : Z) :
  _getItems lower upper st <> OutOfFuel.
Proof.
  unfold _getItems, windowPass, grownPass.
  pose proof (getAnchor_fuel st lower upper).
  destruct (_anchorIdx st), (_anchorPos st); try done;
    by destruct (_getAnchor st lower upper) as [[? ?]| | |].
Qed.

(** ** Passes over a settled layout *)









Section FixedPoint.
Context `{Base : Layout1dBase}.


End FixedPoint.

(** *** The theorems on concrete passes *)

Lemma fresh_no_item (totalItems itemDim1 spacing viewDim1 overhang scrollPosition k : Z) :
  ~ is_Some (_getPhysicalItem
               (fresh totalItems itemDim1 spacing viewDim1 overhang scrollPosition) k).
Proof. unfold _getPhysicalItem. cbn. rewrite lookup_empty. by intros [? ?]. Qed.

(** Scenario 1: the first pass over a new list of 1000 items shows items 0
    to 9. *)
Lemma getActiveItems_range_witness :
  let st' := returned (_getActiveItems scenario1) scenario1 in
  (0 <= _first st' <= 1000 - 1 /\ -1 <= _last st' <= 1000 - 1 /\
   (_first st' <= _last st' \/
    (_last st' = _first st' - 1 /\ _anchorIdx st' = Some (_first st') /\
     _physicalMin st' = _physicalMax st'))) /\
  _first st' = 0 /\ _last st' = 9.
Proof.
  split; [|by vm_compute].
  apply (getActiveItems_range scenario1).
  - reflexivity.
  - reflexivity.
  - intros a Ha. discriminate Ha.
  - intros k Hk. by apply fresh_no_item in Hk.
  - by vm_compute.
Defined.

(** C1.  A settled pass with items and a viewport is to leave
    [0 <= first <= last <= totalItems - 1].  In front of items spaced by 8,
    a viewport of extent 5 ends before item 0 starts: the anchor, item 0,
    is moved to [upper], the forward loop does not run, and the final
    [this._last--] takes [_last] below the anchor.  The pass is stable and
    commits item 0 with [first = 0] and [last = -1], a state for which the
    next choice of an anchor logs "_getAnchor: negative _last". *)
Theorem getActiveItems_collapsed_range :
  let st' := returned (_getActiveItems collapsedView) collapsedView in
  0 < _totalItems collapsedView /\ 0 < _viewDim1 collapsedView /\
  _getActiveItems collapsedView = Ret st' /\
  _stable st' = true /\ _first st' = 0 /\ _last st' = -1 /\
  _physicalItems st' !! 0 = Some {| pos := 0; size := 50 |} /\
  match _getAnchor (_resetReflowState st') 0 5 with
  | Ret (_, st2) => _trace st2
  | _ => []
  end = [ConsoleError "_getAnchor: negative _last"].
Proof. by vm_compute. Qed.

Lemma getItems_commits_iff_stable_witness :
  let built := returned (windowPass 0 500 scenario1) scenario1 in
  exists st',
    _getItems 0 500 scenario1 = Ret st' /\
    _stable st' = _stable built /\
    (if _stable built
     then _physicalItems st' = _newPhysicalItems built /\ _newPhysicalItems st' = ∅
     else _physicalItems st' = _physicalItems scenario1 /\
          _newPhysicalItems st' = _newPhysicalItems built) /\
    exists a, _anchorIdx built = Some a /\
      (_stable built = true <->
       forall i, _first built <= i <= _last built -> i <> a ->
                 is_Some (_getPhysicalItem scenario1 i)).
Proof. apply (getItems_commits_iff_stable 0 500 scenario1). by vm_compute. Defined.

(** C2 as stated fails: the pass below uses the estimate for the one item
    it visits, the anchor, whose size is not known, and yet it is stable
    and commits the window it built. *)
Lemma getItems_estimated_anchor_counterexample :
  let st' := returned (_getItems 0 40 narrowView) narrowView in
  _getItems 0 40 narrowView = Ret st' /\
  _getSize narrowView 0 = None /\
  _physicalItems narrowView !! 0 = None /\
  _stable st' = true /\ _first st' = 0 /\ _last st' = 0 /\
  _physicalItems st' !! 0 = Some {| pos := 0; size := _itemDim1 narrowView |}.
Proof. by vm_compute. Qed.



(** At the end of the list items 990 to 999 are shown and the last one
    ends at the scroll size. *)
Lemma boundary_pinning_witness :
  let grown := returned (grownPass 49500 50000 atBottom) atBottom in
  exists st',
    _getItems 49500 50000 atBottom = Ret st' /\
    (_first st' = 0 -> exists b, _getPhysicalItem st' 0 = Some b /\ pos b = 0) /\
    (_last st' = _totalItems st' - 1 -> _first st' <> 0 -> 0 < _physicalMin grown ->
     _physicalMax st' = _scrollSize st').
Proof. apply (boundary_pinning 49500 50000 atBottom). by vm_compute. Defined.

Example atBottom_range :
  let st' := returned (_getItems 49500 50000 atBottom) atBottom in
  _first st' = 990 /\ _last st' = 999 /\ _physicalMax st' = 50000.
Proof. by vm_compute. Qed.

(** C3 as stated fails: the pass over the two measured items includes the
    last index, 1, and ends at 201 while the scroll size is 202; the window
    includes index 0 too, and only its start is pinned. *)
Lemma boundary_pinning_counterexample :
  let st' := returned (_getItems 0 202 twoMeasured) twoMeasured in
  _getItems 0 202 twoMeasured = Ret st' /\
  _first st' = 0 /\ _last st' = _totalItems st' - 1 /\
  _physicalMax st' = 201 /\ _scrollSize st' = 202.
Proof. by vm_compute. Qed.

Lemma hostBase_frame : baseFrame hostBase.
Proof.
  constructor.
  - intros st. by eexists.
  - intros st. exists (_scrollPosition st), (_scrollError st). by destruct st.
  - done.
Qed.




(** ** More on window passes *)

(** The state a pass grows its window from, with the scroll fields. *)
Lemma grownPass_shape (st grown : Layout1d) (lower upper : Z) :
  grownPass lower upper st = Ret grown ->
  exists st0 a p z d,
    passStart st st0 a p /\
    (_anchorIdx st = Some a \/ exists st1, _getAnchor st lower upper = Ret (a, st1)) /\
    _scrollPosition st0 = _scrollPosition st - d /\
    _scrollError st0 = _scrollError st + d /\
    grown = grownItems a p z (lower - d) (upper - d) st0.
Proof.
  assert (forall st1 a p,
            _anchorIdx st1 = Some a -> _anchorPos st1 = Some p ->
            exists st0 z d,
              passStart st1 st0 a p /\
              _scrollPosition st0 = _scrollPosition st1 - d /\
              _scrollError st0 = _scrollError st1 + d /\
              anchoredGrowth a p lower upper st1
              = grownItems a p z (lower - d) (upper - d) st0) as Hheld.
  { intros st1 a p Ha Hp. unfold anchoredGrowth.
    set (z := default (_itemDim1 st1) (_getSize st1 a)).
    destruct (truthy (anchorError p z lower upper st1)).
    - exists (applyAnchorError (anchorError p z lower upper st1) st1), z,
        (anchorError p z lower upper st1).
      split; [by constructor|]. by split_and !.
    - exists st1, z, 0. rewrite !Z.sub_0_r, Z.add_0_r. split; [by constructor|]. done. }
  unfold grownPass. intros H.
  assert (forall a st1, _getAnchor st lower upper = Ret (a, st1) ->
            _scrollPosition st1 = _scrollPosition st /\
            _scrollError st1 = _scrollError st /\
            forall st0 p, passStart
                            (set_anchorPos (Some (_getPosition (set_anchorIdx (Some a) st1) a))
                               (set_anchorIdx (Some a) st1)) st0 a p ->
                          passStart st st0 a p) as Hframe.
  { intros a st1 Hanchor.
    apply getAnchor_frame in Hanchor as [->|[message ->]];
      (split; [done|]; split; [done|]; intros st0 p []; by constructor). }
  destruct (_anchorIdx st) as [a|] eqn:Ha.
  - destruct (_anchorPos st) as [p|] eqn:Hp.
    + injection H as <-.
      destruct (Hheld st a p Ha Hp) as (st0 & z & d & ? & ? & ? & ?).
      exists st0, a, p, z, d. by auto.
    + destruct (_getAnchor st lower upper) as [[a' st1]| | |] eqn:Hanchor; try discriminate.
      cbn in H. injection H as <-.
      destruct (Hframe a' st1 eq_refl) as (Hsp & Hse & Hstart).
      edestruct (Hheld (set_anchorPos (Some (_getPosition (set_anchorIdx (Some a') st1) a'))
                          (set_anchorIdx (Some a') st1)) a')
        as (st0 & z & d & ? & Hp0 & He0 & ?); [done|done|].
      cbn in Hp0, He0. rewrite Hsp in Hp0. rewrite Hse in He0.
      eexists st0, a', _, z, d. split_and !; eauto.
  - destruct (_getAnchor st lower upper) as [[a' st1]| | |] eqn:Hanchor; try discriminate.
    cbn in H. injection H as <-.
    destruct (Hframe a' st1 eq_refl) as (Hsp & Hse & Hstart).
    edestruct (Hheld (set_anchorPos (Some (_getPosition (set_anchorIdx (Some a') st1) a'))
                        (set_anchorIdx (Some a') st1)) a')
      as (st0 & z & d & ? & Hp0 & He0 & ?); [done|done|].
    cbn in Hp0, He0. rewrite Hsp in Hp0. rewrite Hse in He0.
    eexists st0, a', _, z, d. split_and !; eauto.
Qed.

Lemma correctExtent_scroll (st : Layout1d) :
  let e := _calculateError st in
  _scrollPosition (correctExtent st) = _scrollPosition st - e /\
  _scrollError (correctExtent st) = _scrollError st + e /\
  _anchorPos (correctExtent st) = (fun p => p - e) <$> _anchorPos st /\
  sameHost st (correctExtent st).
Proof.
  cbn zeta. unfold correctExtent.
  destruct (truthy (_calculateError st)) eqn:He.
  - split_and !; first [done | by constructor].
  - apply truthy_false in He. rewrite He, Z.sub_0_r, Z.add_0_r.
    split_and !; first [done | by constructor | idtac].
    destruct (_anchorPos st); cbn; [by rewrite Z.sub_0_r|done].
Qed.

Lemma commitIfStable_scroll (st : Layout1d) :
  _scrollPosition (commitIfStable st) = _scrollPosition st /\
  _scrollError (commitIfStable st) = _scrollError st /\
  _anchorPos (commitIfStable st) = _anchorPos st /\
  sameHost st (commitIfStable st).
Proof.
  unfold commitIfStable.
  destruct (_stable st); split_and !; first [done | by constructor].
Qed.

Lemma sameHost_trans st0 st1 st2 :
  sameHost st0 st1 -> sameHost st1 st2 -> sameHost st0 st2.
Proof. intros [] []. constructor; congruence. Qed.

Lemma sameOutside_host st0 st : sameOutside st0 st -> sameHost st0 st.
Proof. intros []. by constructor. Qed.

(** A pass, from the layout it starts growing from to its result. *)
Lemma getItems_shape (lower upper : Z) (st st' : Layout1d) :
  _getItems lower upper st = Ret st' ->
  exists st0 a p z d grown,
    passStart st st0 a p /\
    (_anchorIdx st = Some a \/ exists st1, _getAnchor st lower upper = Ret (a, st1)) /\
    _scrollPosition st0 = _scrollPosition st - d /\
    _scrollError st0 = _scrollError st + d /\
    grown = grownItems a p z (lower - d) (upper - d) st0 /\
    grownWindow st0 a p z grown /\
    st' = commitIfStable (correctExtent grown).
Proof.
  intros Hget.
  destruct (getItems_inv _ _ _ _ Hget) as (built & Hpass & ->).
  destruct (windowPass_inv _ _ _ _ Hpass) as (grown & Hgrown & ->).
  destruct (grownPass_shape _ _ _ _ Hgrown) as (st0 & a & p & z & d & ? & ? & ? & ? & Heq).
  exists st0, a, p, z, d, grown. split_and !; try done.
  rewrite Heq. apply grownItems_window.
Qed.




Lemma clearItems_branch (st st' : Layout1d) :
  _getActiveItems st = Ret st' ->
  st' = _clearItems st \/
  exists lower upper, _getItems lower upper st = Ret st'.
Proof.
  unfold _getActiveItems. destruct (_ || _); [intros [= <-]; by left|].
  intros H. right. by eauto.
Qed.




(** X5. After [_getItems] every index of the range has a size on record:
    [_getSize] answers for it. *)
Theorem pass_records_range (lower upper : Z) (st st' : Layout1d) (i : Z) :
  _getItems lower upper st = Ret st' ->
  _first st' <= i <= _last st' ->
  is_Some (_getSize st' i).
Proof.
  intros Hget.
  destruct (getItems_shape _ _ _ _ Hget)
    as (st0 & a & p & z & d & grown & _ & _ & _ & _ & _ & Hwin & ->).
  destruct (commitIfStable_fields (correctExtent grown))
    as (-> & -> & _ & _ & _ & _ & _ & _ & _ & Hitem).
  destruct (correctExtent_fields grown) as (-> & -> & _ & _ & _ & HN & _).
  intros Hi. destruct (gw_entries _ _ _ _ _ Hwin i Hi) as [b Hb].
  apply getSize_is_Some. exists (shift (_calculateError grown) b).
  apply Hitem. by rewrite HN, lookup_fmap, Hb.
Qed.

(** X6. [_getItems] on a layout that holds an anchor returns and keeps
    that anchor: its entry is in the window, at the position [_anchorPos]
    gives, and [_first <= anchor <= _last + 1]. *)
Theorem pass_keeps_anchor (lower upper : Z) (st : Layout1d) (a p : Z) :
  _anchorIdx st = Some a -> _anchorPos st = Some p ->
  exists st' item,
    _getItems lower upper st = Ret st' /\
    _anchorIdx st' = Some a /\
    _getPhysicalItem st' a = Some item /\
    _anchorPos st' = Some (pos item) /\
    _first st' <= a <= _last st' + 1.
Proof.
  intros Ha Hp.
  destruct (anchoredGrowth_window st a p lower upper Ha Hp) as (st0 & z & Hstart & Hwin).
  set (grown := anchoredGrowth a p lower upper st) in *.
  exists (commitIfStable (correctExtent grown)), (shift (_calculateError grown) {| pos := p; size := z |}).
  destruct (commitIfStable_fields (correctExtent grown))
    as (-> & -> & _ & _ & _ & -> & _ & _ & _ & Hitem).
  destruct (commitIfStable_scroll (correctExtent grown)) as (_ & _ & -> & _).
  destruct (correctExtent_fields grown) as (-> & -> & _ & _ & _ & HN & _ & -> & _).
  destruct (correctExtent_scroll grown) as (_ & _ & -> & _).
  split_and !.
  - unfold _getItems, windowPass, grownPass. by rewrite Ha, Hp.
  - rewrite (same_anchorIdx _ _ (gw_outside _ _ _ _ _ Hwin)). apply Hstart.
  - apply Hitem. by rewrite HN, lookup_fmap, (gw_anchor _ _ _ _ _ Hwin).
  - rewrite (same_anchorPos _ _ (gw_outside _ _ _ _ _ Hwin)), (ps_anchorPos _ _ _ _ Hstart).
    done.
  - apply Hwin.
  - pose proof (gw_last_ge _ _ _ _ _ Hwin). lia.
Qed.

(** X7. If the anchor a layout holds and the keys of its two windows are
    indices of the list, they still are after [_getItems]. *)
Theorem pass_keeps_indices_valid (lower upper : Z) (st st' : Layout1d) :
  0 < _totalItems st ->
  (forall a, _anchorIdx st = Some a -> 0 <= a < _totalItems st) ->
  (forall k, is_Some (_getPhysicalItem st k) -> 0 <= k < _totalItems st) ->
  _getItems lower upper st = Ret st' ->
  (forall a, _anchorIdx st' = Some a -> 0 <= a < _totalItems st') /\
  (forall k, is_Some (_getPhysicalItem st' k) -> 0 <= k < _totalItems st').
Proof.
  intros HT Hanchor Hkeys Hget.
  destruct (getItems_shape _ _ _ _ Hget)
    as (st0 & a & p & z & d & grown & Hstart & Ha & _ & _ & _ & Hwin & ->).
  assert (0 <= a < _totalItems st) as Harange.
  { destruct Ha as [Ha|[st1 Ha]]; [by apply Hanchor|by eapply getAnchor_range]. }
  destruct (commitIfStable_fields (correctExtent grown))
    as (_ & _ & _ & _ & _ & -> & -> & _).
  destruct (correctExtent_fields grown) as (_ & _ & _ & _ & _ & HN & HP & -> & -> & _).
  pose proof (gw_outside _ _ _ _ _ Hwin) as Hout.
  rewrite (same_anchorIdx _ _ Hout), (ps_anchorIdx _ _ _ _ Hstart),
    (same_totalItems _ _ Hout), (ps_totalItems _ _ _ _ Hstart).
  split; [by intros ? [= <-]|].
  assert (forall k, is_Some (_newPhysicalItems grown !! k) -> 0 <= k < _totalItems st) as Hnew.
  { intros k Hk.
    pose proof (gw_first_ge _ _ _ _ _ Hwin). pose proof (gw_first_le _ _ _ _ _ Hwin).
    pose proof (gw_last_le _ _ _ _ _ Hwin) as Hle.
    rewrite (ps_totalItems _ _ _ _ Hstart) in Hle.
    destruct (decide (k = a)) as [->|Hka]; [done|].
    destruct (decide (_first grown <= k <= _last grown)); [lia|].
    rewrite (gw_elsewhere _ _ _ _ _ Hwin k) in Hk by (lia || done).
    rewrite (ps_newPhysicalItems _ _ _ _ Hstart) in Hk.
    apply Hkeys. unfold _getPhysicalItem. destruct Hk as [b ->]. by eauto. }
  assert (forall k, is_Some (_physicalItems grown !! k) -> 0 <= k < _totalItems st) as Hold.
  { intros k Hk. rewrite (same_physicalItems _ _ Hout), (ps_physicalItems _ _ _ _ Hstart) in Hk.
    apply Hkeys. unfold _getPhysicalItem.
    destruct (_newPhysicalItems st !! k); [by eauto|done]. }
  intros k. unfold commitIfStable, _getPhysicalItem.
  destruct (_stable (correctExtent grown)); cbn.
  - rewrite lookup_empty, HN, lookup_fmap. intros Hk%fmap_is_Some. by apply Hnew.
  - rewrite HN, HP, lookup_fmap.
    destruct (_newPhysicalItems grown !! k) eqn:Hk; cbn.
    + intros _. apply Hnew. by rewrite Hk.
    + apply Hold.
Qed.

(** X8. A pass of [_getActiveItems] leaves the measurement accounts, the
    average item size, the configuration, the scroll size and the
    re-measure flag as it found them. *)
Theorem pass_keeps_accounts (st st' : Layout1d) :
  _getActiveItems st = Ret st' ->
  sameAccounts st st' /\
  _itemSize st' = _itemSize st /\ _totalItems st' = _totalItems st /\
  _viewDim1 st' = _viewDim1 st /\ _overhang st' = _overhang st /\
  _spacing st' = _spacing st /\ _delta st' = _delta st /\
  _estimate st' = _estimate st /\ _scrollSize st' = _scrollSize st /\
  _needsRemeasure st' = _needsRemeasure st.
Proof.
  intros [->|(lower & upper & Hget)]%clearItems_branch; [by repeat split|].
  destruct (getItems_shape _ _ _ _ Hget)
    as (st0 & a & p & z & d & grown & Hstart & _ & _ & _ & _ & Hwin & ->).
  destruct (commitIfStable_scroll (correctExtent grown)) as (_ & _ & _ & H1).
  destruct (correctExtent_scroll grown) as (_ & _ & _ & H2).
  pose proof (sameOutside_host _ _ (gw_outside _ _ _ _ _ Hwin)) as H3.
  pose proof (sameHost_trans _ _ _ H3 (sameHost_trans _ _ _ H2 H1)) as [].
  destruct Hstart. unfold sameAccounts. split_and !; congruence.
Qed.

(** ** More on measurements *)

Lemma set_item_size_item (st : Layout1d) (idx s k : Z) :
  _getPhysicalItem (set_item_size idx s st) k =
  if decide (k = idx) then with_size s <$> _getPhysicalItem st k
  else _getPhysicalItem st k.
Proof.
  unfold set_item_size, _getPhysicalItem.
  destruct (_newPhysicalItems st !! idx) as [item|] eqn:Hidx; cbn.
  - destruct (decide (k = idx)) as [->|Hne].
    + by rewrite lookup_alter_eq, Hidx.
    + by rewrite lookup_alter_ne.
  - destruct (decide (k = idx)) as [->|Hne].
    + rewrite Hidx, lookup_alter_eq. by destruct (_physicalItems st !! idx).
    + by rewrite lookup_alter_ne.
Qed.

Lemma getPhysicalItem_set_metrics (m : gmap Z Size) (st : Layout1d) (k : Z) :
  _getPhysicalItem (set_metrics m st) k = _getPhysicalItem st k.
Proof. done. Qed.

Lemma measureItem_item (st : Layout1d) (entry : Z * ItemBox) (k : Z) :
  _getPhysicalItem (measureItem st entry) k =
  if decide (k = fst entry)
  then with_size (effectiveSize (_sizeDim st) (snd entry)) <$> _getPhysicalItem st k
  else _getPhysicalItem st k.
Proof.
  unfold measureItem. cbn zeta. rewrite getPhysicalItem_set_metrics.
  cbn [_sizeDim set_metrics]. rewrite box_metrics_effective.
  destruct (_getPhysicalItem st (fst entry)) as [item|] eqn:Hitem.
  - assert (forall st1,
              _getPhysicalItem st1 k =
              _getPhysicalItem
                (set_item_size (fst entry) (effectiveSize (_sizeDim st) (snd entry))
                   (set_metrics (<[fst entry := box_metrics (snd entry)]> (_metrics st)) st)) k ->
              _getPhysicalItem st1 k =
              if decide (k = fst entry)
              then with_size (effectiveSize (_sizeDim st) (snd entry)) <$> _getPhysicalItem st k
              else _getPhysicalItem st k) as Hgo.
    { intros st1 ->. by rewrite set_item_size_item. }
    destruct (_metrics st !! fst entry); cbn; by apply Hgo.
  - destruct (decide (k = fst entry)) as [->|]; [by rewrite Hitem|done].
Qed.

Lemma measureItem_metrics (st : Layout1d) (entry : Z * ItemBox) :
  _metrics (measureItem st entry) = <[fst entry := box_metrics (snd entry)]> (_metrics st).
Proof. unfold measureItem, set_item_size. by repeat case_match. Qed.

(** What one measurement does to the two counters. *)
Lemma measureItem_counts (st : Layout1d) (entry : Z * ItemBox) :
  let size := effectiveSize (_sizeDim st) (snd entry) in
  match _getPhysicalItem st (fst entry), _metrics st !! fst entry with
  | Some _, None =>
      _nMeasured (measureItem st entry) = _nMeasured st + 1 /\
      _tMeasured (measureItem st entry) = _tMeasured st + size
  | Some _, Some prev =>
      _nMeasured (measureItem st entry) = _nMeasured st /\
      _tMeasured (measureItem st entry) =
        _tMeasured st + (size - dim_get (_sizeDim st) prev)
  | None, _ =>
      _nMeasured (measureItem st entry) = _nMeasured st /\
      _tMeasured (measureItem st entry) = _tMeasured st
  end.
Proof.
  cbn zeta. unfold measureItem. cbn zeta. rewrite !getPhysicalItem_set_metrics.
  cbn [_sizeDim set_metrics]. rewrite !box_metrics_effective.
  destruct (_getPhysicalItem st (fst entry)); [|done].
  destruct (_metrics st !! fst entry); cbn; unfold set_item_size; by case_match.
Qed.

Lemma measureItem_layout (st : Layout1d) (entry : Z * ItemBox) :
  _first (measureItem st entry) = _first st /\
  _last (measureItem st entry) = _last st /\
  _physicalMin (measureItem st entry) = _physicalMin st /\
  _physicalMax (measureItem st entry) = _physicalMax st /\
  _anchorIdx (measureItem st entry) = _anchorIdx st /\
  _anchorPos (measureItem st entry) = _anchorPos st /\
  _stable (measureItem st entry) = _stable st /\
  _scrollPosition (measureItem st entry) = _scrollPosition st /\
  _scrollError (measureItem st entry) = _scrollError st /\
  _needsRemeasure (measureItem st entry) = _needsRemeasure st.
Proof. unfold measureItem, set_item_size. by repeat case_match. Qed.

Lemma updateItemSizes_measured (sizes : list (Z * ItemBox)) (st : Layout1d) :
  let counted := fold_left measureItem sizes st in
  (forall k, _getPhysicalItem (updateItemSizes sizes st) k = _getPhysicalItem counted k) /\
  _metrics (updateItemSizes sizes st) = _metrics counted /\
  _nMeasured (updateItemSizes sizes st) = _nMeasured counted /\
  _tMeasured (updateItemSizes sizes st) = _tMeasured counted.
Proof. cbn zeta. unfold updateItemSizes. by destruct (_ =? 0). Qed.

(** X9. After [updateItemSizes] on an object (its keys are distinct),
    every measured index that is in a window has the measured size there,
    margins included, at its old position; the entries of all other
    indices are as before, and no entry is created. *)
Theorem updateItemSizes_sets_sizes (sizes : list (Z * ItemBox)) (st : Layout1d) :
  NoDup (fst <$> sizes) ->
  (forall k box, (k, box) ∈ sizes ->
     _getPhysicalItem (updateItemSizes sizes st) k =
     with_size (effectiveSize (_sizeDim st) box) <$> _getPhysicalItem st k) /\
  (forall k, k ∉ fst <$> sizes ->
     _getPhysicalItem (updateItemSizes sizes st) k = _getPhysicalItem st k).
Proof.
  intros Hnodup.
  destruct (updateItemSizes_measured sizes st) as (Hitem & _). cbn zeta in Hitem.
  assert (forall (l : list (Z * ItemBox)) st1 k, k ∉ fst <$> l ->
            _getPhysicalItem (fold_left measureItem l st1) k = _getPhysicalItem st1 k)
    as Hother.
  { clear. induction l as [|entry l IH]; intros st1 k Hk; [done|].
    cbn [fold_left]. rewrite fmap_cons, not_elem_of_cons in Hk. destruct Hk as [Hne Hk].
    rewrite IH by done. rewrite measureItem_item. by rewrite decide_False. }
  split; [|intros k Hk; rewrite Hitem; by apply Hother].
  intros k box Hin. rewrite Hitem. clear Hitem.
  revert st Hnodup Hin. induction sizes as [|entry sizes IH]; intros st Hnodup Hin.
  { by apply elem_of_nil in Hin. }
  cbn [fold_left]. rewrite fmap_cons in Hnodup. apply NoDup_cons in Hnodup as [Hfresh Hnodup].
  apply elem_of_cons in Hin as [<-|Hin].
  - cbn in Hfresh. rewrite Hother by done.
    rewrite measureItem_item. cbn. by rewrite decide_True.
  - assert (k <> fst entry) as Hne.
    { intros ->. apply Hfresh. apply list_elem_of_fmap. by exists (fst entry, box). }
    rewrite IH by done.
    destruct (measureItem_frame st entry) as (_ & _ & ->).
    rewrite measureItem_item. by rewrite decide_False.
Qed.

(** X10. [updateItemSizes] stores the width and the height, margins
    included, of every index it is given in [_metrics], whether the index
    is in a window or not, and leaves the metrics of the other indices
    alone. *)
Theorem updateItemSizes_stores_metrics (sizes : list (Z * ItemBox)) (st : Layout1d) :
  NoDup (fst <$> sizes) ->
  (forall k box, (k, box) ∈ sizes ->
     _metrics (updateItemSizes sizes st) !! k = Some (box_metrics box)) /\
  (forall k, k ∉ fst <$> sizes ->
     _metrics (updateItemSizes sizes st) !! k = _metrics st !! k).
Proof.
  intros Hnodup.
  destruct (updateItemSizes_measured sizes st) as (_ & -> & _).
  assert (forall (l : list (Z * ItemBox)) st1 k, k ∉ fst <$> l ->
            _metrics (fold_left measureItem l st1) !! k = _metrics st1 !! k) as Hother.
  { clear. induction l as [|entry l IH]; intros st1 k Hk; [done|].
    cbn [fold_left]. rewrite fmap_cons, not_elem_of_cons in Hk. destruct Hk as [Hne Hk].
    rewrite IH by done. rewrite measureItem_metrics. by rewrite lookup_insert_ne. }
  split; [|intros k Hk; by apply Hother].
  intros k box Hin.
  revert st Hnodup Hin. induction sizes as [|entry sizes IH]; intros st Hnodup Hin.
  { by apply elem_of_nil in Hin. }
  cbn [fold_left]. rewrite fmap_cons in Hnodup. apply NoDup_cons in Hnodup as [Hfresh Hnodup].
  apply elem_of_cons in Hin as [<-|Hin].
  - cbn in Hfresh. rewrite Hother by done.
    rewrite measureItem_metrics. cbn. by rewrite lookup_insert_eq.
  - by apply IH.
Qed.

Lemma measureItem_count_bounds (st : Layout1d) (entry : Z * ItemBox) :
  _nMeasured st <= _nMeasured (measureItem st entry) <= _nMeasured st + 1.
Proof.
  pose proof (measureItem_counts st entry) as H. cbn zeta in H.
  destruct (_getPhysicalItem st (fst entry)), (_metrics st !! fst entry);
    destruct H as [-> _]; lia.
Qed.

(** X11. [updateItemSizes] never decreases the count of measured items,
    and increases it by at most the number of entries of the call. *)
Theorem updateItemSizes_count_bounds (sizes : list (Z * ItemBox)) (st : Layout1d) :
  _nMeasured st <= _nMeasured (updateItemSizes sizes st)
  <= _nMeasured st + Z.of_nat (length sizes).
Proof.
  destruct (updateItemSizes_measured sizes st) as (_ & _ & -> & _).
  revert st. induction sizes as [|entry sizes IH]; intros st; [cbn; lia|].
  cbn [fold_left length]. specialize (IH (measureItem st entry)).
  pose proof (measureItem_count_bounds st entry). lia.
Qed.

(** X12. A call of [updateItemSizes] that only measures indices whose
    metrics are already stored leaves the count of measured items as it
    is. *)
Theorem updateItemSizes_counts_once (sizes : list (Z * ItemBox)) (st : Layout1d) :
  (forall entry, entry ∈ sizes -> is_Some (_metrics st !! fst entry)) ->
  _nMeasured (updateItemSizes sizes st) = _nMeasured st.
Proof.
  destruct (updateItemSizes_measured sizes st) as (_ & _ & -> & _).
  revert st. induction sizes as [|entry sizes IH]; intros st Hstored; [done|].
  cbn [fold_left]. rewrite IH.
  - pose proof (measureItem_counts st entry) as H. cbn zeta in H.
    destruct (Hstored entry) as [prev Hprev]; [by left|]. rewrite Hprev in H.
    by destruct (_getPhysicalItem st (fst entry)); destruct H as [-> _].
  - intros e He. rewrite measureItem_metrics.
    destruct (decide (fst entry = fst e)) as [->|Hne].
    + rewrite lookup_insert_eq. by eauto.
    + rewrite lookup_insert_ne by done. apply Hstored. by right.
Qed.


(** X14. [updateItemSizes] moves nothing: the positions of the entries of
    both windows, the range, the physical extent, the anchor, the stable
    flag, the scroll position, the scroll error and the re-measure flag are
    as before. *)
Theorem updateItemSizes_keeps_layout (sizes : list (Z * ItemBox)) (st : Layout1d) :
  let st' := updateItemSizes sizes st in
  (forall k, pos <$> _getPhysicalItem st' k = pos <$> _getPhysicalItem st k) /\
  _first st' = _first st /\ _last st' = _last st /\
  _physicalMin st' = _physicalMin st /\ _physicalMax st' = _physicalMax st /\
  _anchorIdx st' = _anchorIdx st /\ _anchorPos st' = _anchorPos st /\
  _stable st' = _stable st /\
  _scrollPosition st' = _scrollPosition st /\ _scrollError st' = _scrollError st /\
  _needsRemeasure st' = _needsRemeasure st.
Proof.
  cbn zeta.
  assert (forall k, pos <$> _getPhysicalItem (fold_left measureItem sizes st) k
                    = pos <$> _getPhysicalItem st k) as Hpos.
  { revert st. induction sizes as [|entry sizes IH]; intros st k; [done|].
    cbn [fold_left]. rewrite IH, measureItem_item.
    destruct (decide (k = fst entry)); [|done]. by destruct (_getPhysicalItem st k). }
  assert (let counted := fold_left measureItem sizes st in
          _first counted = _first st /\ _last counted = _last st /\
          _physicalMin counted = _physicalMin st /\ _physicalMax counted = _physicalMax st /\
          _anchorIdx counted = _anchorIdx st /\ _anchorPos counted = _anchorPos st /\
          _stable counted = _stable st /\
          _scrollPosition counted = _scrollPosition st /\
          _scrollError counted = _scrollError st /\
          _needsRemeasure counted = _needsRemeasure st) as Hlayout.
  { cbn zeta. clear Hpos. revert st.
    induction sizes as [|entry sizes IH]; intros st; [done|].
    cbn [fold_left].
    destruct (IH (measureItem st entry)) as (-> & -> & -> & -> & -> & -> & -> & -> & -> & ->).
    apply measureItem_layout. }
  cbn zeta in Hlayout.
  destruct (updateItemSizes_measured sizes st) as (Hitem & _). cbn zeta in Hitem.
  split; [intros k; by rewrite Hitem|].
  unfold updateItemSizes. by destruct (_ =? 0).
Qed.

(** ** More on anchors *)

(** X15. In a list that is not empty and for [_delta <> 0], the anchor
    [_calculateAnchor] estimates is an index of the list; it is item 0
    when [lower] is 0, and otherwise the last item when [upper] is beyond
    the start of the last viewport. *)
Theorem calculateAnchor_valid (st : Layout1d) (lower upper : Z) :
  0 < _totalItems st -> _delta st <> 0 ->
  0 <= _calculateAnchor st lower upper <= _totalItems st - 1 /\
  (lower = 0 -> _calculateAnchor st lower upper = 0) /\
  (lower <> 0 -> _scrollSize st - _viewDim1 st < upper ->
   _calculateAnchor st lower upper = _totalItems st - 1).
Proof.
  intros HT _. pose proof (calculateAnchor_range st lower upper HT).
  split; [lia|]. unfold _calculateAnchor. split.
  - by intros ->.
  - intros Hne Hlt. destruct (Z.eqb_spec lower 0); [done|].
    by destruct (Z.ltb_spec (_scrollSize st - _viewDim1 st) upper); [|lia].
Qed.

Lemma log_neq (e : Event) (st : Layout1d) : log e st <> st.
Proof.
  intros Heq. apply (f_equal _trace) in Heq. cbn in Heq.
  apply (f_equal length) in Heq. cbn in Heq. lia.
Qed.

(** X16. When the keys of both windows are indices of a list that is not
    empty and [_delta <> 0], the anchor [_getAnchor] returns is one too.
    Choosing it changes nothing exactly when no item is committed or
    neither [_first] nor [_last] is negative; with items committed it logs
    one error, and nothing else changes: "negative _first" if [_first] is
    negative, and otherwise "negative _last" if [_last] is. *)
Theorem getAnchor_valid (st st1 : Layout1d) (lower upper a : Z) :
  0 < _totalItems st -> _delta st <> 0 ->
  (forall k, is_Some (_getPhysicalItem st k) -> 0 <= k < _totalItems st) ->
  _getAnchor st lower upper = Ret (a, st1) ->
  0 <= a < _totalItems st /\
  (st1 = st <-> _physicalItems st = ∅ \/ (0 <= _first st /\ 0 <= _last st)) /\
  (_physicalItems st <> ∅ -> _first st < 0 ->
   st1 = log (ConsoleError "_getAnchor: negative _first") st) /\
  (_physicalItems st <> ∅ -> 0 <= _first st -> _last st < 0 ->
   st1 = log (ConsoleError "_getAnchor: negative _last") st).
Proof.
  intros HT _ Hkeys Hanchor. split; [by eapply getAnchor_range|].
  revert Hanchor. unfold _getAnchor.
  destruct (decide (_physicalItems st = ∅)) as [Hempty|Hitems].
  { intros [= _ <-]. split_and !; [split; by auto|done|done]. }
  destruct (Z.ltb_spec (_first st) 0) as [Hfirst|Hfirst].
  { intros [= _ <-]. split_and !; [|done|lia].
    split; [by intros ?%log_neq|intros [?|[? _]]; [done|lia]]. }
  destruct (Z.ltb_spec (_last st) 0) as [Hlast|Hlast].
  { intros [= _ <-]. split_and !; [|lia|done].
    split; [by intros ?%log_neq|intros [?|[_ ?]]; [done|lia]]. }
  intros Hret.
  assert (st1 = st) as ->.
  { repeat case_match; try discriminate; try (by injection Hret as _ <-).
    destruct (anchorSearch _ _ _ _ _ _); try discriminate.
    cbn in Hret. by injection Hret as _ <-. }
  split_and !; [split; by auto|lia|lia].
Qed.

(** X17. The index the search loop of [_getAnchor] returns is that of a
    committed item whose start or whose end lies in [lower, upper]. *)
Theorem anchorSearch_overlaps (n : nat) (items : gmap Z ItemBounds)
    (lower upper minIdx maxIdx c : Z) :
  anchorSearch n items lower upper minIdx maxIdx = Ret c ->
  exists candidate,
    items !! c = Some candidate /\
    (lower <= pos candidate <= upper \/
     lower <= pos candidate + size candidate <= upper).
Proof.
  revert minIdx maxIdx. induction n as [|n IH]; intros minIdx maxIdx; [done|].
  cbn [anchorSearch].
  destruct (items !! ((maxIdx + minIdx + 1) / 2)) as [candidate|] eqn:Hc; [|done].
  destruct (_ || _) eqn:Hover.
  - intros [= <-]. exists candidate. split; [done|].
    apply orb_true_iff in Hover as [H|H]; apply andb_true_iff in H as [H1 H2];
      apply Z.leb_le in H1, H2; [left|right]; lia.
  - repeat case_match; try done; apply IH.
Qed.

(** X18. The search loop of [_getAnchor] is decided within
    [searchFuel] iterations: it returns, throws, or repeats its state for
    ever.  Neither [_getAnchor] nor a pass runs out of fuel. *)
Theorem anchorSearch_bounded (st : Layout1d) (lower upper : Z) :
  _getAnchor st lower upper <> OutOfFuel /\
  _getItems lower upper st <> OutOfFuel /\
  _getActiveItems st <> OutOfFuel.
Proof.
  split; [apply getAnchor_fuel|]. split; [apply getItems_fuel|].
  unfold _getActiveItems. destruct (_ || _); [done|apply getItems_fuel].
Qed.

(** X19. With committed items and a range whose first or last index is in
    neither window, [_getAnchor] throws: it reads [pos] of [undefined]. *)
Theorem getAnchor_missing_item_throws (st : Layout1d) (lower upper : Z) :
  _physicalItems st <> ∅ -> 0 <= _first st -> 0 <= _last st ->
  _getPhysicalItem st (_first st) = None \/ _getPhysicalItem st (_last st) = None ->
  _getAnchor st lower upper = Throws.
Proof.
  intros Hne Hf Hl Hmissing. unfold _getAnchor.
  rewrite decide_False by done.
  destruct (Z.ltb_spec (_first st) 0); [lia|].
  destruct (Z.ltb_spec (_last st) 0); [lia|].
  destruct Hmissing as [-> | ->]; [done|].
  by destruct (_getPhysicalItem st (_first st)).
Qed.

(** X20. When the first item of the range ends before [lower], the last
    starts after [upper], and the committed item in the middle of the range
    starts before [lower] and ends after [upper], the search loop of
    [_getAnchor] never ends: none of its branches is taken, and the bounds
    stay as they are. *)
Theorem getAnchor_spanning_item_diverges (st : Layout1d) (lower upper : Z)
    (firstItem lastItem candidate : ItemBounds) :
  lower <= upper -> 0 <= _first st -> 0 <= _last st ->
  _getPhysicalItem st (_first st) = Some firstItem ->
  _getPhysicalItem st (_last st) = Some lastItem ->
  _physicalItems st !! ((_last st + _first st + 1) / 2) = Some candidate ->
  pos firstItem + size firstItem < lower -> pos firstItem < lower ->
  upper < pos lastItem -> upper < pos lastItem + size lastItem ->
  pos candidate < lower -> upper < pos candidate + size candidate ->
  _getAnchor st lower upper = Diverges.
Proof.
  intros Hlu Hf Hl Hfirst Hlast Hcand Hf1 Hf2 Hl1 Hl2 Hc1 Hc2. unfold _getAnchor.
  destruct (decide (_physicalItems st = ∅)) as [Hempty|_].
  { by rewrite Hempty, lookup_empty in Hcand. }
  destruct (Z.ltb_spec (_first st) 0); [lia|].
  destruct (Z.ltb_spec (_last st) 0); [lia|].
  rewrite Hfirst, Hlast.
  destruct (Z.ltb_spec (pos lastItem + size lastItem) lower); [lia|].
  destruct (Z.ltb_spec upper (pos firstItem)); [lia|].
  assert ((lower <=? pos firstItem) || (lower <=? pos firstItem + size firstItem) = false)
    as -> by (apply orb_false_iff; rewrite !Z.leb_gt; lia).
  assert ((pos lastItem + size lastItem <=? upper) || (pos lastItem <=? upper) = false)
    as -> by (apply orb_false_iff; rewrite !Z.leb_gt; lia).
  unfold searchFuel.
  destruct (Z.to_nat (Z.abs (_last st - _first st) + 3)) as [|n] eqn:Hn; [lia|].
  cbn [anchorSearch]. rewrite Hcand.
  assert ((lower <=? pos candidate) && (pos candidate <=? upper)
          || (lower <=? pos candidate + size candidate)
             && (pos candidate + size candidate <=? upper) = false) as ->.
  { apply orb_false_iff. split; apply andb_false_iff; rewrite !Z.leb_gt; lia. }
  destruct (Z.ltb_spec (pos candidate + size candidate) lower); [lia|].
  destruct (Z.ltb_spec upper (pos candidate)); [lia|]. done.
Qed.


(** ** More on reflows *)

Lemma anchoredGrowth_trace (a p lower upper : Z) (st : Layout1d) :
  _trace (anchoredGrowth a p lower upper st) = _trace st.
Proof.
  unfold anchoredGrowth.
  set (z := default (_itemDim1 st) (_getSize st a)).
  destruct (truthy (anchorError p z lower upper st)).
  - pose proof (grownItems_window
                  (applyAnchorError (anchorError p z lower upper st) st) a p z
                  (lower - anchorError p z lower upper st)
                  (upper - anchorError p z lower upper st)) as Hwin.
    by rewrite (same_trace _ _ (gw_outside _ _ _ _ _ Hwin)).
  - pose proof (grownItems_window st a p z lower upper) as Hwin.
    by rewrite (same_trace _ _ (gw_outside _ _ _ _ _ Hwin)).
Qed.

(** What a pass logs: nothing, or the one error of [_getAnchor]. *)
Lemma getItems_trace (lower upper : Z) (st st' : Layout1d) :
  _getItems lower upper st = Ret st' ->
  _trace st' = _trace st \/
  exists message, _trace st' = ConsoleError message :: _trace st.
Proof.
  intros Hget.
  destruct (getItems_inv _ _ _ _ Hget) as (built & Hpass & ->).
  destruct (windowPass_inv _ _ _ _ Hpass) as (grown & Hgrown & ->).
  destruct (commitIfStable_scroll (correctExtent grown)) as (_ & _ & _ & H1).
  destruct (correctExtent_scroll grown) as (_ & _ & _ & H2).
  rewrite (host_trace _ _ H1), (host_trace _ _ H2).
  revert Hgrown. unfold grownPass.
  assert (forall a st1, _getAnchor st lower upper = Ret (a, st1) ->
            forall q, _trace (anchoredGrowth a q lower upper
                                (set_anchorPos (Some q) (set_anchorIdx (Some a) st1)))
                      = _trace st \/
                      exists message,
                        _trace (anchoredGrowth a q lower upper
                                  (set_anchorPos (Some q) (set_anchorIdx (Some a) st1)))
                        = ConsoleError message :: _trace st) as Hchosen.
  { intros a st1 Hanchor q. rewrite anchoredGrowth_trace. cbn.
    apply getAnchor_frame in Hanchor as [-> | [message ->]]; [by left|right; by eexists]. }
  destruct (_anchorIdx st) as [a|]; [destruct (_anchorPos st) as [p|]|].
  - intros [= <-]. left. apply anchoredGrowth_trace.
  - destruct (_getAnchor st lower upper) as [[a' st1]| | |] eqn:Hanchor; try discriminate.
    cbn. intros [= <-]. by apply Hchosen.
  - destruct (_getAnchor st lower upper) as [[a' st1]| | |] eqn:Hanchor; try discriminate.
    cbn. intros [= <-]. by apply Hchosen.
Qed.

Lemma getActiveItems_trace (st st' : Layout1d) :
  _getActiveItems st = Ret st' ->
  _trace st' = _trace st \/
  exists message, _trace st' = ConsoleError message :: _trace st.
Proof.
  intros [->|(lower & upper & Hget)]%clearItems_branch; [by left|].
  by eapply getItems_trace.
Qed.

(** What a pass leaves of the fields the host set. *)
Lemma getActiveItems_host (st st' : Layout1d) :
  _getActiveItems st = Ret st' ->
  _needsRemeasure st' = _needsRemeasure st /\ _scrollSize st' = _scrollSize st /\
  _sizeDim st' = _sizeDim st /\ _itemSize st' = _itemSize st.
Proof.
  intros [->|(lower & upper & Hget)]%clearItems_branch; [done|].
  destruct (getItems_shape _ _ _ _ Hget)
    as (st0 & a & p & z & d & grown & Hstart & _ & _ & _ & _ & Hwin & ->).
  destruct (commitIfStable_scroll (correctExtent grown)) as (_ & _ & _ & H1).
  destruct (correctExtent_scroll grown) as (_ & _ & _ & H2).
  pose proof (sameOutside_host _ _ (gw_outside _ _ _ _ _ Hwin)) as H3.
  pose proof (sameHost_trans _ _ _ H3 (sameHost_trans _ _ _ H2 H1)) as [].
  destruct Hstart. split_and !; congruence.
Qed.

(** A pass that ran [_getItems] holds an anchor. *)
Lemma getActiveItems_anchor (st st' : Layout1d) :
  _getActiveItems st = Ret st' ->
  (_first st' = -1 /\ _last st' = -1) \/
  (is_Some (_anchorIdx st') /\ is_Some (_anchorPos st')).
Proof.
  intros [->|(lower & upper & Hget)]%clearItems_branch; [by left|]. right.
  destruct (getItems_shape _ _ _ _ Hget)
    as (st0 & a & p & z & d & grown & Hstart & _ & _ & _ & _ & Hwin & ->).
  destruct (commitIfStable_fields (correctExtent grown))
    as (_ & _ & _ & _ & _ & -> & _).
  destruct (commitIfStable_scroll (correctExtent grown)) as (_ & _ & -> & _).
  destruct (correctExtent_fields grown) as (_ & _ & _ & _ & _ & _ & _ & -> & _).
  destruct (correctExtent_scroll grown) as (_ & _ & -> & _).
  rewrite (same_anchorIdx _ _ (gw_outside _ _ _ _ _ Hwin)),
    (same_anchorPos _ _ (gw_outside _ _ _ _ _ Hwin)),
    (ps_anchorIdx _ _ _ _ Hstart), (ps_anchorPos _ _ _ _ Hstart). by eauto.
Qed.

Section Reflow.
Context `{Base : Layout1dBase}.

(** A reflow, from the pass it runs to what it leaves and emits. *)
Lemma reflow_shape (st st' : Layout1d) :
  baseFrame Base -> _reflow st = Ret st' ->
  exists pass,
    _getActiveItems (_updateScrollSize st) = Ret pass /\
    _first st' = _first pass /\ _last st' = _last pass /\
    _scrollSize st' = _scrollSize pass /\
    _needsRemeasure st' = false /\
    (if (_first pass =? -1) && (_last pass =? -1)
        || (_first pass =? _first st) && (_last pass =? _last st)
     then _anchorIdx st' = None /\ _anchorPos st' = None /\ _stable st' = true
     else _anchorIdx st' = _anchorIdx pass /\ _anchorPos st' = _anchorPos pass /\
          _stable st' = _stable pass) /\
    _trace st' =
      (if (_first pass =? -1) && (_last pass =? -1) then []
       else [EmitScrollError (_scrollError st'); EmitChildPositions (childPositions st')])
      ++ EmitRange (_first pass) (_last pass) (_needsRemeasure st) (_stable pass)
      :: (if _scrollSize pass =? _scrollSize st then []
          else [EmitScrollSize (_scrollSize pass)])
      ++ _trace pass.
Proof.
  intros [Hupd Hscroll Hvisible]. unfold _reflow.
  destruct (_getActiveItems (_updateScrollSize st)) as [pass| | |] eqn:Hpass; try discriminate.
  cbn [mbind outcome_bind]. intros Hreflow. exists pass. split; [done|]. revert Hreflow.
  destruct (getActiveItems_host _ _ Hpass) as (Hrem & _).
  assert (_needsRemeasure (_updateScrollSize st) = _needsRemeasure st) as Hrem0.
  { unfold _updateScrollSize. by destruct (Hupd st) as [v ->]. }
  rewrite Hrem0 in Hrem.
  destruct (Hscroll pass) as (p & e & ->). rewrite Hvisible.
  change (_scrollSize (set_scrollError e (set_scrollPosition p pass))) with (_scrollSize pass).
  destruct (_scrollSize pass =? _scrollSize st); cbn;
    destruct (_first pass =? -1) eqn:Hf, (_last pass =? -1) eqn:Hl; cbn;
    try (intros [= <-]; cbn; rewrite Hrem; by split_and !);
    destruct (_first pass =? _first st), (_last pass =? _last st); cbn;
    intros [= <-]; cbn; rewrite Hrem; by split_and !.
Qed.

(** The events of a reflow, oldest last: the error a pass may log, the
    scroll size if it changed, the range, and for a range that is not
    empty the child positions and the scroll error. *)
Lemma reflow_events (st st' : Layout1d) :
  baseFrame Base -> _reflow st = Ret st' ->
  exists (tailEvents : list Event) (stable : bool) (sizeEvents errors : list Event),
    _trace st' =
      tailEvents
      ++ EmitRange (_first st') (_last st') (_needsRemeasure st) stable
      :: sizeEvents ++ errors ++ _trace st /\
    (tailEvents = [] \/
     tailEvents = [EmitScrollError (_scrollError st');
                   EmitChildPositions (childPositions st')]) /\
    (_scrollSize st' = _scrollSize st /\ sizeEvents = [] \/
     _scrollSize st' <> _scrollSize st /\ sizeEvents = [EmitScrollSize (_scrollSize st')]) /\
    (errors = [] \/ exists message, errors = [ConsoleError message]).
Proof.
  intros Hbase Hreflow.
  destruct (reflow_shape st st' Hbase Hreflow)
    as (pass & Hpass & Hf & Hl & HS & _ & _ & Htrace).
  assert (_trace (_updateScrollSize st) = _trace st) as Htrace0.
  { unfold _updateScrollSize. by destruct (bf_updateScrollSize _ Hbase st) as [v ->]. }
  rewrite Hf, Hl, HS, Htrace.
  assert (exists errors, _trace pass = errors ++ _trace st /\
            (errors = [] \/ exists message, errors = [ConsoleError message]))
    as (errors & -> & Herrors).
  { destruct (getActiveItems_trace _ _ Hpass) as [-> | [message ->]]; rewrite Htrace0.
    - exists []. split; [done|by left].
    - exists [ConsoleError message]. split; [done|right; by eexists]. }
  eexists _, _, _, errors. split; [done|].
  split; [destruct (_ && _); by auto|].
  split; [|done].
  destruct (Z.eqb_spec (_scrollSize pass) (_scrollSize st)); by auto.
Qed.

(** X22. A reflow that returns emits exactly one range event, for the
    range it leaves and with the re-measure flag it found, and leaves the
    flag cleared. *)
Theorem reflow_emits_one_range (st st' : Layout1d) :
  baseFrame Base -> _reflow st = Ret st' ->
  _needsRemeasure st' = false /\
  exists (after : list Event) (stable : bool) (before : list Event),
    _trace st' =
      after ++ EmitRange (_first st') (_last st') (_needsRemeasure st) stable
      :: before ++ _trace st /\
    forall f l r s, EmitRange f l r s ∉ after ++ before.
Proof.
  intros Hbase Hreflow.
  destruct (reflow_shape st st' Hbase Hreflow) as (_ & _ & _ & _ & _ & Hrem & _).
  split; [done|].
  destruct (reflow_events st st' Hbase Hreflow)
    as (tailEvents & stable & sizeEvents & errors & -> & Htail & Hsize & Herrors).
  exists tailEvents, stable, (sizeEvents ++ errors).
  split; [by rewrite <- app_assoc|].
  intros f l r s. rewrite !elem_of_app.
  destruct Htail as [Ht|Ht], Hsize as [[Hs Hs']|[Hs Hs']], Herrors as [He|[message He]];
    rewrite Ht, Hs', He, ?elem_of_cons, ?elem_of_nil; intuition (try discriminate; congruence).
Qed.

(** X23. A reflow that returns drops its anchor, and says the layout is
    stable, exactly when the range it leaves is empty or is the range it
    found; otherwise it holds an anchor.  The re-measure flag has no part
    in it: [_emitRange] has cleared it before [_reflow] reads it. *)
Theorem reflow_drops_anchor_iff (st st' : Layout1d) :
  baseFrame Base -> _reflow st = Ret st' ->
  let unchanged :=
    (_first st' = -1 /\ _last st' = -1) \/
    (_first st' = _first st /\ _last st' = _last st) in
  (unchanged -> _anchorIdx st' = None /\ _anchorPos st' = None /\ _stable st' = true) /\
  (~ unchanged -> is_Some (_anchorIdx st') /\ is_Some (_anchorPos st')).
Proof.
  intros Hbase Hreflow.
  destruct (reflow_shape st st' Hbase Hreflow)
    as (pass & Hpass & Hf & Hl & _ & _ & Hanchor & _).
  cbn zeta. rewrite Hf, Hl.
  destruct (Z.eqb_spec (_first pass) (-1)), (Z.eqb_spec (_last pass) (-1)),
    (Z.eqb_spec (_first pass) (_first st)), (Z.eqb_spec (_last pass) (_last st));
    cbn in Hanchor; (split; [intros Hyes | intros Hno]); try done; try lia;
    try (exfalso; apply Hno; lia);
    destruct Hanchor as (-> & -> & _);
    (destruct (getActiveItems_anchor _ _ Hpass) as [[? ?]|?]; [lia|done]).
Qed.

(** X24. After a reflow the scroll size is at least the [_physicalMax] the
    reflow found, and the reflow emits a scroll size, the new one, exactly
    when it differs from the one it found. *)
Theorem reflow_scroll_size (st st' : Layout1d) :
  baseFrame Base -> _reflow st = Ret st' ->
  _physicalMax st <= _scrollSize st' /\
  exists events : list Event,
    _trace st' = events ++ _trace st /\
    forall v, EmitScrollSize v ∈ events <->
              v = _scrollSize st' /\ v <> _scrollSize st.
Proof.
  intros Hbase Hreflow.
  destruct (reflow_shape st st' Hbase Hreflow) as (pass & Hpass & _ & _ & HS & _).
  destruct (getActiveItems_host _ _ Hpass) as (_ & HS' & _).
  split.
  { rewrite HS, HS'. unfold _updateScrollSize.
    destruct (bf_updateScrollSize _ Hbase st) as [v ->]. cbn. lia. }
  destruct (reflow_events st st' Hbase Hreflow)
    as (tailEvents & stable & sizeEvents & errors & -> & Htail & Hsize & Herrors).
  exists (tailEvents
          ++ EmitRange (_first st') (_last st') (_needsRemeasure st) stable
          :: sizeEvents ++ errors).
  split; [by rewrite <- !app_assoc, <- app_comm_cons, <- app_assoc|].
  intros v. rewrite !elem_of_app, elem_of_cons, elem_of_app.
  destruct Htail as [Ht|Ht], Hsize as [[Hs Hs']|[Hs Hs']], Herrors as [He|[message He]];
    rewrite Ht, Hs', He, ?elem_of_cons, ?elem_of_nil; intuition (try discriminate; congruence).
Qed.

(** X25. After [_viewDim2Changed], which schedules a reflow, the next
    reflow emits its range with the re-measure flag set, and the reflow
    after that one emits its range with the flag cleared. *)
Theorem viewDim2Changed_remeasures_once (st st1 st2 : Layout1d) :
  baseFrame Base ->
  _reflow (_viewDim2Changed st) = Ret st1 -> _reflow st1 = Ret st2 ->
  exists events1 events2 : list Event,
    _trace st1 = events1 ++ ScheduleReflow :: _trace st /\
    _trace st2 = events2 ++ _trace st1 /\
    (exists stable, EmitRange (_first st1) (_last st1) true stable ∈ events1) /\
    (forall f l r s, EmitRange f l r s ∈ events1 -> r = true) /\
    (forall f l r s, EmitRange f l r s ∈ events2 -> r = false).
Proof.
  intros Hbase Hreflow1 Hreflow2.
  destruct (reflow_shape _ _ Hbase Hreflow1) as (_ & _ & _ & _ & _ & Hrem & _).
  destruct (reflow_events _ _ Hbase Hreflow1)
    as (tail1 & stable1 & size1 & errors1 & Htrace1 & Htail1 & Hsize1 & Herrors1).
  destruct (reflow_events _ _ Hbase Hreflow2)
    as (tail2 & stable2 & size2 & errors2 & Htrace2 & Htail2 & Hsize2 & Herrors2).
  rewrite Hrem in Htrace2. cbn in Htrace1.
  exists (tail1 ++ EmitRange (_first st1) (_last st1) true stable1 :: size1 ++ errors1),
    (tail2 ++ EmitRange (_first st2) (_last st2) false stable2 :: size2 ++ errors2).
  split_and !.
  - by rewrite Htrace1, <- !app_assoc, <- app_comm_cons, <- app_assoc.
  - by rewrite Htrace2, <- !app_assoc, <- app_comm_cons, <- app_assoc.
  - exists stable1. rewrite elem_of_app, elem_of_cons. by auto.
  - intros f l r s. rewrite !elem_of_app, elem_of_cons, elem_of_app.
    destruct Htail1 as [Ht|Ht], Hsize1 as [[Hs Hs']|[Hs Hs']], Herrors1 as [He|[message He]];
      rewrite Ht, Hs', He, ?elem_of_cons, ?elem_of_nil; intuition (try discriminate; congruence).
  - intros f l r s. rewrite !elem_of_app, elem_of_cons, elem_of_app.
    destruct Htail2 as [Ht|Ht], Hsize2 as [[Hs Hs']|[Hs Hs']], Herrors2 as [He|[message He]];
      rewrite Ht, Hs', He, ?elem_of_cons, ?elem_of_nil; intuition (try discriminate; congruence).
Qed.
End Reflow.

(** ** Passes that do not estimate *)

Lemma stopEstimating_measure (orig st : Layout1d) :
  _estimate orig = false -> sameOutside orig st ->
  stopEstimating st = negb (_stable st).
Proof.
  intros Hest Hout. unfold stopEstimating.
  by rewrite (same_estimate _ _ Hout), Hest, andb_true_r.
Qed.

Lemma growBackward_last (n : nat) (lower : Z) (st : Layout1d) :
  _last (growBackward n lower st) = _last st.
Proof.
  revert st. induction n as [|n IH]; intros st; [done|].
  cbn [growBackward]. destruct (backwardGuard lower st); [|done].
  destruct (backwardStep_fields st) as (_ & Hl & _).
  destruct (stopEstimating (backwardStep st)); [done|]. by rewrite IH.
Qed.

(** Without estimates the backward loop stops at the first index it has
    no size for: every index above the lowest is known. *)
Lemma growBackward_measure (orig : Layout1d) (a p z lower : Z) (n : nat) (st : Layout1d) :
  _estimate orig = false ->
  windowInv orig a p z st -> atEnd orig a p st -> _stable st = true ->
  forall i, _first (growBackward n lower st) < i < _last (growBackward n lower st) ->
            i <> a -> is_Some (_getPhysicalItem orig i).
Proof.
  intros Hest. revert st. induction n as [|n IH]; intros st Hinv Hend Hstable.
  - cbn. intros i Hi. apply (wi_stable _ _ _ _ _ Hinv); [done|lia].
  - cbn [growBackward]. destruct (backwardGuard lower st) eqn:Hguard.
    + destruct (backwardStep_inv orig a p z lower st Hinv Hend Hguard) as [Hinv' Hend'].
      rewrite (stopEstimating_measure orig) by (done || apply Hinv').
      destruct (_stable (backwardStep st)) eqn:Hstable'; cbn [negb].
      * by apply IH.
      * destruct (backwardStep_fields st) as (-> & -> & _).
        intros i Hi. apply (wi_stable _ _ _ _ _ Hinv); [done|lia].
    + intros i Hi. apply (wi_stable _ _ _ _ _ Hinv); [done|lia].
Qed.

(** Without estimates the forward loop adds at most one index it has no
    size for, and none if the backward loop did. *)
Lemma growForward_measure (orig : Layout1d) (a p z upper : Z) (n : nat) (st : Layout1d) :
  _estimate orig = false ->
  windowInv orig a p z st -> atEnd orig a p st ->
  _stable st = true \/ (_last st = a /\ oneUnknown orig a (_first st) (_last st)) ->
  oneUnknown orig a (_first (growForward n upper st)) (_last (growForward n upper st)).
Proof.
  intros Hest.
  assert (forall st1, windowInv orig a p z st1 ->
            _stable st1 = true \/
            (_last st1 = a /\ oneUnknown orig a (_first st1) (_last st1)) ->
            oneUnknown orig a (_first st1) (_last st1)) as Hstay.
  { clear st. intros st Hinv [Hstable|[_ ?]]; [|done].
    intros i j Hi Hj Hia Hja Hnone.
    destruct (proj1 (wi_stable _ _ _ _ _ Hinv) Hstable i Hi Hia) as [b Hb]. congruence. }
  revert st. induction n as [|n IH]; intros st Hinv Hend Hcase; [by apply Hstay|].
  cbn [growForward]. destruct (forwardGuard upper st) eqn:Hguard; [|by apply Hstay].
  destruct (forwardStep_inv orig a p z upper st Hinv Hend Hguard) as [Hinv' Hend'].
  rewrite (stopEstimating_measure orig) by (done || apply Hinv').
  destruct (_stable (forwardStep st)) eqn:Hstable'; cbn [negb].
  - apply IH; [| done | by left].
    destruct Hinv'. constructor; try done.
    eapply sameOutside_trans; [done|]. apply forwardAdvance_outside.
  - destruct (forwardStep_fields st) as (-> & -> & _).
    intros i j Hi Hj Hia Hja Hnonei Hnonej.
    destruct Hcase as [Hstable|[Hla Hone]].
    + assert (forall k, _first st <= k < _last st + 1 -> k <> a ->
                        _getPhysicalItem orig k = None -> k = _last st) as Hend_only.
      { intros k Hk Hka Hnone. destruct (decide (k = _last st)); [done|].
        destruct (proj1 (wi_stable _ _ _ _ _ Hinv) Hstable k ltac:(lia) Hka) as [b Hb].
        congruence. }
      rewrite (Hend_only i), (Hend_only j); done.
    + apply Hone; try done; lia.
Qed.

(** Without estimates a window holds at most one index, apart from the
    anchor, that neither window knew. *)
Lemma grownItems_measure (orig : Layout1d) (a p z lower upper : Z) :
  _estimate orig = false ->
  let grown := grownItems a p z lower upper orig in
  oneUnknown orig a (_first grown) (_last grown + 1).
Proof.
  intros Hest. unfold grownItems. cbn zeta.
  destruct (seedAnchor_inv orig a p z) as [Hinv0 Hend0].
  set (st0 := seedAnchor a p z orig) in *.
  set (n1 := Z.to_nat (_first st0)).
  destruct (growBackward_inv orig a p z lower n1 _ Hinv0 Hend0) as [Hinv1 Hend1].
  pose proof (growBackward_measure orig a p z lower n1 st0 Hest Hinv0 Hend0 eq_refl) as Hknown.
  pose proof (growBackward_last n1 lower st0) as Hlast.
  set (st1 := growBackward n1 lower st0) in *.
  change (_last st0) with a in Hlast.
  set (n2 := Z.to_nat (_totalItems st1 - _last st1)).
  cbn [_first _last set_last]. replace (_last (growForward n2 upper st1) - 1 + 1)
    with (_last (growForward n2 upper st1)) by lia.
  change (_first (set_last (_last (growForward n2 upper st1) - 1) (growForward n2 upper st1)))
    with (_first (growForward n2 upper st1)).
  apply (growForward_measure orig a p z); try done.
  destruct (_stable st1); [by left|right]. split; [done|].
  intros i j Hi Hj Hia Hja Hnonei Hnonej.
  assert (forall k, _first st1 <= k < _last st1 -> k <> a ->
                    _getPhysicalItem orig k = None -> k = _first st1) as Hlow.
  { intros k Hk Hka Hnone. destruct (decide (k = _first st1)); [done|].
    destruct (Hknown k ltac:(lia) Hka) as [b Hb]. congruence. }
  rewrite (Hlow i), (Hlow j); done.
Qed.

(** X26. With [_estimate] cleared, the range [_getItems] leaves holds at
    most one index, the anchor apart, that was in neither window before
    the pass: the loops stop at the first size they have to estimate. *)
Theorem measure_mode_one_estimate (lower upper : Z) (st st' : Layout1d) (i j : Z) :
  _estimate st = false -> _getItems lower upper st = Ret st' ->
  _first st' <= i <= _last st' -> _first st' <= j <= _last st' ->
  _anchorIdx st' <> Some i -> _anchorIdx st' <> Some j ->
  _getPhysicalItem st i = None -> _getPhysicalItem st j = None ->
  i = j.
Proof.
  intros Hest Hget.
  destruct (getItems_shape _ _ _ _ Hget)
    as (st0 & a & p & z & d & grown & Hstart & _ & _ & _ & Hgrown & Hwin & ->).
  assert (_estimate st0 = false) as Hest0 by (by rewrite (ps_estimate _ _ _ _ Hstart)).
  pose proof (grownItems_measure st0 a p z (lower - d) (upper - d) Hest0) as Hone.
  rewrite <- Hgrown in Hone. cbn zeta in Hone.
  destruct (commitIfStable_fields (correctExtent grown))
    as (-> & -> & _ & _ & _ & -> & _).
  destruct (correctExtent_fields grown) as (-> & -> & _ & _ & _ & _ & _ & -> & _).
  rewrite (same_anchorIdx _ _ (gw_outside _ _ _ _ _ Hwin)), (ps_anchorIdx _ _ _ _ Hstart).
  intros Hi Hj Hia Hja Hnonei Hnonej.
  apply Hone; try lia; try congruence;
    by rewrite (getPhysicalItem_start st st0 a p).
Qed.

(** ** Passes that settle *)



(** ** Clearing, and the average *)

(** X29. [_clearItems] empties the range and the committed window, and
    commits the window in progress in its place.  If that window is not
    empty, the next choice of an anchor finds committed items under a
    negative range, logs an error and estimates the anchor. *)
Theorem clearItems_keeps_in_progress (st : Layout1d) (lower upper : Z) :
  _newPhysicalItems st <> ∅ ->
  (forall i, _getPhysicalItem (_clearItems st) i = _newPhysicalItems st !! i) /\
  _first (_clearItems st) = -1 /\ _last (_clearItems st) = -1 /\
  _getAnchor (_clearItems st) lower upper =
    Ret (_calculateAnchor st lower upper,
         log (ConsoleError "_getAnchor: negative _first") (_clearItems st)).
Proof.
  intros Hne. split.
  { intros i. unfold _getPhysicalItem. cbn. by rewrite lookup_empty. }
  split; [done|]. split; [done|].
  unfold _getAnchor. cbn. by rewrite decide_False.
Qed.

(** X30. With items measured, the average [_updateItemSize] stores along
    the scroll axis is the quotient of the total by the count, rounded to
    the nearest integer, halves upwards; the size across is kept. *)
Theorem updateItemSize_rounds (st : Layout1d) :
  0 < _nMeasured st ->
  let average := _itemDim1 (_updateItemSize st) in
  2 * _nMeasured st * average <= 2 * _tMeasured st + _nMeasured st
    < 2 * _nMeasured st * (average + 1) /\
  _itemDim2 (_updateItemSize st) = _itemDim2 st.
Proof.
  intros Hn. unfold _updateItemSize, _itemDim1, _itemDim2, Math_round_div. cbn.
  destruct (_sizeDim st); cbn; split; try done; nia.
Qed.

(** *** The further theorems on concrete layouts *)




Lemma pass_records_range_witness : is_Some (_getSize firstPass 3).
Proof. apply (pass_records_range 0 500 scenario1 firstPass 3); by vm_compute. Defined.

Lemma pass_keeps_anchor_witness :
  exists st' item,
    _getItems 0 500 firstPass = Ret st' /\
    _anchorIdx st' = Some 0 /\
    _getPhysicalItem st' 0 = Some item /\
    _anchorPos st' = Some (pos item) /\
    _first st' <= 0 <= _last st' + 1.
Proof. apply (pass_keeps_anchor 0 500 firstPass 0 0); by vm_compute. Defined.

Lemma pass_keeps_indices_valid_witness :
  (forall a, _anchorIdx firstPass = Some a -> 0 <= a < _totalItems firstPass) /\
  (forall k, is_Some (_getPhysicalItem firstPass k) -> 0 <= k < _totalItems firstPass).
Proof.
  apply (pass_keeps_indices_valid 0 500 scenario1 firstPass).
  - by vm_compute.
  - intros a Ha. discriminate Ha.
  - intros k Hk. by apply fresh_no_item in Hk.
  - by vm_compute.
Defined.

Lemma pass_keeps_accounts_witness :
  sameAccounts scenario1 firstPass /\
  _itemSize firstPass = _itemSize scenario1 /\
  _totalItems firstPass = _totalItems scenario1 /\
  _viewDim1 firstPass = _viewDim1 scenario1 /\
  _overhang firstPass = _overhang scenario1 /\
  _spacing firstPass = _spacing scenario1 /\ _delta firstPass = _delta scenario1 /\
  _estimate firstPass = _estimate scenario1 /\
  _scrollSize firstPass = _scrollSize scenario1 /\
  _needsRemeasure firstPass = _needsRemeasure scenario1.
Proof. apply (pass_keeps_accounts scenario1 firstPass). by vm_compute. Defined.

Lemma updateItemSizes_sets_sizes_witness :
  (forall k box, (k, box) ∈ firstCall ->
     _getPhysicalItem (updateItemSizes firstCall twoWindowed) k =
     with_size (effectiveSize (_sizeDim twoWindowed) box)
       <$> _getPhysicalItem twoWindowed k) /\
  (forall k, k ∉ fst <$> firstCall ->
     _getPhysicalItem (updateItemSizes firstCall twoWindowed) k
     = _getPhysicalItem twoWindowed k).
Proof.
  apply (updateItemSizes_sets_sizes firstCall twoWindowed).
  apply (bool_decide_unpack (NoDup (fst <$> firstCall))). by vm_compute.
Defined.

Lemma updateItemSizes_stores_metrics_witness :
  (forall k box, (k, box) ∈ firstCall ->
     _metrics (updateItemSizes firstCall scenario1) !! k = Some (box_metrics box)) /\
  (forall k, k ∉ fst <$> firstCall ->
     _metrics (updateItemSizes firstCall scenario1) !! k = _metrics scenario1 !! k).
Proof.
  apply (updateItemSizes_stores_metrics firstCall scenario1).
  apply (bool_decide_unpack (NoDup (fst <$> firstCall))). by vm_compute.
Defined.

Lemma updateItemSizes_counts_once_witness :
  _nMeasured (updateItemSizes secondCall (updateItemSizes firstCall twoWindowed))
  = _nMeasured (updateItemSizes firstCall twoWindowed).
Proof.
  apply (updateItemSizes_counts_once secondCall (updateItemSizes firstCall twoWindowed)).
  intros entry ->%list_elem_of_singleton. eexists. by vm_compute.
Defined.


Lemma calculateAnchor_valid_witness :
  0 <= _calculateAnchor scenario1 1000 1500 <= _totalItems scenario1 - 1 /\
  (1000 = 0 -> _calculateAnchor scenario1 1000 1500 = 0) /\
  (1000 <> 0 -> _scrollSize scenario1 - _viewDim1 scenario1 < 1500 ->
   _calculateAnchor scenario1 1000 1500 = _totalItems scenario1 - 1).
Proof. apply (calculateAnchor_valid scenario1 1000 1500); by vm_compute. Defined.

(** An item is committed and the range is still the empty one of a new
    layout: the anchor is estimated, and the error is logged. *)
Lemma getAnchor_valid_witness :
  _getAnchor oneCommitted 1000 1500 =
    Ret (25, log (ConsoleError "_getAnchor: negative _first") oneCommitted) /\
  0 <= 25 < _totalItems oneCommitted /\
  log (ConsoleError "_getAnchor: negative _first") oneCommitted <> oneCommitted.
Proof.
  assert (_getAnchor oneCommitted 1000 1500 =
            Ret (25, log (ConsoleError "_getAnchor: negative _first") oneCommitted))
    as Hanchor by (by vm_compute).
  split; [done|].
  destruct (getAnchor_valid oneCommitted
              (log (ConsoleError "_getAnchor: negative _first") oneCommitted)
              1000 1500 25) as (Hrange & Hsame & _).
  - by vm_compute.
  - by vm_compute.
  - intros k Hk. destruct (decide (k = 0)) as [->|Hne]; [done|].
    exfalso. revert Hk. unfold _getPhysicalItem, oneCommitted. cbn.
    rewrite lookup_empty, lookup_singleton_ne by done. by intros [? ?].
  - exact Hanchor.
  - split; [done|]. intros Heq. apply Hsame in Heq as [Hempty|[Hfirst _]].
    + apply (f_equal (fun m => m !! 0)) in Hempty. by vm_compute in Hempty.
    + cbn in Hfirst. lia.
Defined.

Lemma anchorSearch_overlaps_witness :
  exists candidate,
    ({[ 0 := {| pos := 0; size := 50 |}; 1 := {| pos := 50; size := 50 |};
        2 := {| pos := 100; size := 50 |} ]} : gmap Z ItemBounds) !! 1 = Some candidate /\
    (60 <= pos candidate <= 100 \/ 60 <= pos candidate + size candidate <= 100).
Proof. apply (anchorSearch_overlaps 5 _ 60 100 0 2 1). by vm_compute. Defined.

Lemma getAnchor_missing_item_throws_witness : _getAnchor strayRange 0 500 = Throws.
Proof.
  apply (getAnchor_missing_item_throws strayRange 0 500).
  - intros Hempty. apply (f_equal (fun m => m !! 0)) in Hempty. by vm_compute in Hempty.
  - by vm_compute.
  - by vm_compute.
  - left. by vm_compute.
Defined.

Lemma getAnchor_spanning_item_diverges_witness :
  _getAnchor tallItem 100 200 = Diverges.
Proof.
  apply (getAnchor_spanning_item_diverges tallItem 100 200
           {| pos := 0; size := 50 |} {| pos := 550; size := 50 |}
           {| pos := 50; size := 500 |}); by vm_compute.
Defined.


Lemma reflow_emits_one_range_witness :
  _needsRemeasure spacedPass1 = false /\
  exists (after : list Event) (stable : bool) (before : list Event),
    _trace spacedPass1 =
      after ++ EmitRange (_first spacedPass1) (_last spacedPass1)
                 (_needsRemeasure spaced) stable
      :: before ++ _trace spaced /\
    forall f l r s, EmitRange f l r s ∉ after ++ before.
Proof.
  apply (reflow_emits_one_range spaced spacedPass1 hostBase_frame). by vm_compute.
Defined.

Lemma reflow_drops_anchor_iff_witness :
  ((_first spacedPass1 = -1 /\ _last spacedPass1 = -1) \/
   (_first spacedPass1 = _first spaced /\ _last spacedPass1 = _last spaced) ->
   _anchorIdx spacedPass1 = None /\ _anchorPos spacedPass1 = None /\
   _stable spacedPass1 = true) /\
  (~ ((_first spacedPass1 = -1 /\ _last spacedPass1 = -1) \/
      (_first spacedPass1 = _first spaced /\ _last spacedPass1 = _last spaced)) ->
   is_Some (_anchorIdx spacedPass1) /\ is_Some (_anchorPos spacedPass1)).
Proof.
  apply (reflow_drops_anchor_iff spaced spacedPass1 hostBase_frame). by vm_compute.
Defined.

Lemma reflow_scroll_size_witness :
  _physicalMax spaced <= _scrollSize spacedPass1 /\
  exists events : list Event,
    _trace spacedPass1 = events ++ _trace spaced /\
    forall v, EmitScrollSize v ∈ events <->
              v = _scrollSize spacedPass1 /\ v <> _scrollSize spaced.
Proof.
  apply (reflow_scroll_size spaced spacedPass1 hostBase_frame). by vm_compute.
Defined.

Lemma viewDim2Changed_remeasures_once_witness :
  exists events1 events2 : list Event,
    _trace resized = events1 ++ ScheduleReflow :: _trace spaced /\
    _trace resizedAgain = events2 ++ _trace resized /\
    (exists stable, EmitRange (_first resized) (_last resized) true stable ∈ events1) /\
    (forall f l r s, EmitRange f l r s ∈ events1 -> r = true) /\
    (forall f l r s, EmitRange f l r s ∈ events2 -> r = false).
Proof.
  apply (viewDim2Changed_remeasures_once spaced resized resizedAgain hostBase_frame);
    by vm_compute.
Defined.

Lemma measure_mode_one_estimate_witness :
  _getItems 0 500 measuring = Ret (returned (_getItems 0 500 measuring) measuring) /\
  _last (returned (_getItems 0 500 measuring) measuring) = 1 /\
  _getPhysicalItem measuring 1 = None /\
  1 = 1.
Proof.
  split; [by vm_compute|]. split; [by vm_compute|]. split; [by vm_compute|].
  apply (measure_mode_one_estimate 0 500 measuring
           (returned (_getItems 0 500 measuring) measuring) 1 1); by vm_compute.
Defined.



Lemma clearItems_keeps_in_progress_witness :
  (forall i, _getPhysicalItem (_clearItems firstPass) i = _newPhysicalItems firstPass !! i) /\
  _first (_clearItems firstPass) = -1 /\ _last (_clearItems firstPass) = -1 /\
  _getAnchor (_clearItems firstPass) 0 500 =
    Ret (_calculateAnchor firstPass 0 500,
         log (ConsoleError "_getAnchor: negative _first") (_clearItems firstPass)).
Proof.
  apply (clearItems_keeps_in_progress firstPass 0 500).
  intros Hempty. apply (f_equal (fun m => m !! 0)) in Hempty. by vm_compute in Hempty.
Defined.

Lemma updateItemSize_rounds_witness :
  2 * _nMeasured twoMeasured * _itemDim1 (_updateItemSize twoMeasured)
    <= 2 * _tMeasured twoMeasured + _nMeasured twoMeasured
    < 2 * _nMeasured twoMeasured * (_itemDim1 (_updateItemSize twoMeasured) + 1) /\
  _itemDim2 (_updateItemSize twoMeasured) = _itemDim2 twoMeasured.
Proof. apply (updateItemSize_rounds twoMeasured). by vm_compute. Defined.
